(** * Customer comment cleaning pipeline: [src/cleaning_functions.py]

    A shallow embedding of the text-normalisation pipeline and of the
    word-count and success-flag helpers built on it.

    Python strings are sequences of Unicode code points, so a string is a
    [list Z] here.  The built-in string operations the module uses
    ([str.split], [str.join], [str.strip], [str.replace], [str.lower]) and
    the three regular-expression substitutions are written out as
    functions.  What the module imports from third-party packages (the NLTK
    stopword corpus and tokenizer, the [contractions] expander, the [emoji]
    replacer, [html.unescape]) and the Unicode case tables are fields of the
    record [Libraries]; every definition of the module takes it as its
    first argument. *)

From Stdlib Require Import ZArith List String Ascii Bool Lia.
From stdpp Require Import base decidable list gmap.
Import ListNotations.

Local Open Scope Z_scope.

(** ** Strings *)

Abbreviation pystr := (list Z).

(** An ASCII literal as a Python string. *)
Definition lit (s : string) : pystr :=
  map (fun a => Z.of_nat (nat_of_ascii a)) (list_ascii_of_string s).

(** [str.isspace] on one code point; the regular-expression class [\s] of a
    [str] pattern and the separators of [str.split()] and [str.strip()] use
    the same table. *)
Definition is_space (c : Z) : bool :=
  ((9 <=? c) && (c <=? 13)) || ((28 <=? c) && (c <=? 32))
  || (c =? 133) || (c =? 160) || (c =? 5760)
  || ((8192 <=? c) && (c <=? 8202))
  || (c =? 8232) || (c =? 8233) || (c =? 8239) || (c =? 8287) || (c =? 12288).

Definition is_ascii_upper (c : Z) : bool := (65 <=? c) && (c <=? 90).
Definition is_ascii_lower (c : Z) : bool := (97 <=? c) && (c <=? 122).

(** The class [a-zA-Z]. *)
Definition is_ascii_letter (c : Z) : bool := is_ascii_upper c || is_ascii_lower c.

Definition SPACE : Z := 32.
Definition NEWLINE : Z := 10.
Definition LT : Z := 60.
Definition GT : Z := 62.

(** [text.split()]: the maximal runs of non-whitespace code points, in
    order.  [cur] is the run being read. *)
Fixpoint split_from (cur : pystr) (s : pystr) : list pystr :=
  match s with
  | [] => match cur with [] => [] | _ => [cur] end
  | c :: rest =>
      if is_space c
      then match cur with
           | [] => split_from [] rest
           | _ => cur :: split_from [] rest
           end
      else split_from (cur ++ [c]) rest
  end.

Definition split (s : pystr) : list pystr := split_from [] s.

(** [sep.join(words)]. *)
Fixpoint join (sep : pystr) (words : list pystr) : pystr :=
  match words with
  | [] => []
  | [w] => w
  | w :: rest => w ++ sep ++ join sep rest
  end.

Fixpoint lstrip (s : pystr) : pystr :=
  match s with
  | c :: rest => if is_space c then lstrip rest else s
  | [] => []
  end.

(** [text.strip()]. *)
Definition strip (s : pystr) : pystr := rev (lstrip (rev (lstrip s))).

Fixpoint starts_with (p s : pystr) : bool :=
  match p, s with
  | [], _ => true
  | a :: p', b :: s' => (a =? b) && starts_with p' s'
  | _ :: _, [] => false
  end.

(** [text.replace(old, new)] for a non-empty [old]: occurrences are found
    from the left and do not overlap.  [skip] counts the code points of a
    matched occurrence still to be passed over. *)
Fixpoint replace_from (old new : pystr) (skip : nat) (s : pystr) : pystr :=
  match s with
  | [] => []
  | c :: rest =>
      match skip with
      | S k => replace_from old new k rest
      | O =>
          if starts_with old s
          then new ++ replace_from old new (length old - 1) rest
          else c :: replace_from old new 0 rest
      end
  end.

Definition replace (old new s : pystr) : pystr := replace_from old new 0 s.

(** ** What the module imports *)

Record Libraries := {
  (** [nltk.corpus.stopwords.words("english")] *)
  stopwords_words_english : list pystr;
  (** [nltk.tokenize.word_tokenize] *)
  word_tokenize : pystr -> list pystr;
  (** [contractions.fix] *)
  contractions_fix : pystr -> pystr;
  (** [html.unescape] *)
  html_unescape : pystr -> pystr;
  (** [emoji.replace_emoji(text, replace)] *)
  emoji_replace_emoji : pystr -> pystr -> pystr;
  (** The lower-case mapping of a code point above the ASCII range, given
      the code points before and after it (the mapping of capital sigma
      depends on them). *)
  unicode_lower : pystr -> Z -> pystr -> pystr
}.

(** ** Regular-expression substitutions *)

(** The rest of a match of [<.*?>] after its [<]: the number of code points
    up to and including the nearest [>], when no newline comes before it
    ([.] does not match a newline). *)
Fixpoint tag_rest (s : pystr) : option nat :=
  match s with
  | [] => None
  | c :: rest =>
      if c =? GT then Some 1%nat
      else if c =? NEWLINE then None
      else option_map S (tag_rest rest)
  end.

(** [re.sub(r"<.*?>", " ", text)]; [skip] counts the code points of the
    current match still to be passed over. *)
Fixpoint sub_tags (skip : nat) (s : pystr) : pystr :=
  match s with
  | [] => []
  | c :: rest =>
      match skip with
      | S k => sub_tags k rest
      | O =>
          if c =? LT
          then match tag_rest rest with
               | Some n => SPACE :: sub_tags n rest
               | None => c :: sub_tags 0 rest
               end
          else c :: sub_tags 0 rest
      end
  end.

(** [re.sub(r"(.)\1{2,}", r"\1\1", text)].  A match starts at a code point
    other than newline that is followed by two more copies of itself, and
    it takes every further copy; it is replaced by two copies.  [inside] is
    the code point of the match being passed over. *)
Fixpoint sub_repeats (inside : option Z) (s : pystr) : pystr :=
  match s with
  | [] => []
  | c :: rest =>
      if match inside with Some d => c =? d | None => false end
      then sub_repeats inside rest
      else if negb (c =? NEWLINE) && starts_with [c; c] rest
      then c :: c :: sub_repeats (Some c) rest
      else c :: sub_repeats None rest
  end.

(** [re.sub(r"[^a-zA-Z\s]", " ", text)]. *)
Definition sub_non_letters (s : pystr) : pystr :=
  map (fun c => if is_ascii_letter c || is_space c then c else SPACE) s.

(** ** The module *)

(** The set literal bound to [negation_words]. *)
Definition negation_words : gset pystr :=
  list_to_set
    [ lit "not"; lit "no"; lit "never"; lit "none";
      lit "did"; lit "did not";
      lit "was"; lit "was not";
      lit "were"; lit "were not";
      lit "cannot";
      lit "cant"; lit "can't";
      lit "should not"; lit "shouldn't";
      lit "could not"; lit "couldn't";
      lit "would not"; lit "wouldn't" ].

(** The loop of [remove_stopwords] over the tokens; [cleaned] is the list
    it appends to. *)
Fixpoint keep_words (negation stop : gset pystr) (words cleaned : list pystr)
  : list pystr :=
  match words with
  | [] => cleaned
  | w :: rest =>
      if bool_decide (w ∈ negation) then keep_words negation stop rest (cleaned ++ [w])
      else if bool_decide (w ∉ stop) then keep_words negation stop rest (cleaned ++ [w])
      else keep_words negation stop rest cleaned
  end.

Definition ascii_lower (c : Z) : Z := if is_ascii_upper c then c + 32 else c.

Definition count_words (text : pystr) : nat := length (split text).

Definition normalize_repeated_characters (text : pystr) : pystr :=
  sub_repeats None text.

Definition remove_symbols (text : pystr) : pystr := sub_non_letters text.

Definition flag_cleaning_success (original_text cleaned_text : pystr) : pystr :=
  match strip cleaned_text with
  | [] => lit "Failed"
  | _ :: _ => lit "Success"
  end.

Section Pipeline.

Variable L : Libraries.

(** [stop_words] as first bound: [set(stopwords.words("english"))]. *)
Definition stop_words_loaded : gset pystr :=
  list_to_set (stopwords_words_english L).

(** [stop_words] after [stop_words = stop_words - negation_words]. *)
Definition stop_words : gset pystr := stop_words_loaded ∖ negation_words.

Definition remove_html_tags (text : pystr) : pystr :=
  let text := html_unescape L text in
  sub_tags 0 text.

Definition remove_emojis (text : pystr) : pystr :=
  emoji_replace_emoji L text (lit " ").

Definition expand_contractions_text (text : pystr) : pystr :=
  let expanded := contractions_fix L text in
  let expanded := replace (lit "can not") (lit "cannot") expanded in
  expanded.

(** [text.lower()]; [before] holds the code points already passed. *)
Fixpoint lower_from (before s : pystr) : pystr :=
  match s with
  | [] => []
  | c :: rest =>
      (if c <? 128 then [ascii_lower c] else unicode_lower L before c rest)
        ++ lower_from (before ++ [c]) rest
  end.

Definition lowercase_text (text : pystr) : pystr := lower_from [] text.

Definition remove_stopwords (text : pystr) : pystr :=
  let words := word_tokenize L text in
  let cleaned := keep_words negation_words stop_words words [] in
  join (lit " ") cleaned.

Definition clean_comment (text : pystr) : pystr * nat * nat :=
  let words_before := count_words text in
  let cleaned := expand_contractions_text text in
  let cleaned := remove_html_tags cleaned in
  let cleaned := remove_emojis cleaned in
  let cleaned := normalize_repeated_characters cleaned in
  let cleaned := lowercase_text cleaned in
  let cleaned := remove_symbols cleaned in
  let cleaned := remove_stopwords cleaned in
  let cleaned := join (lit " ") (split cleaned) in
  let words_after := count_words cleaned in
  (cleaned, words_before, words_after).

End Pipeline.

Definition cleaned_text (r : pystr * nat * nat) : pystr := r.1.1.
Definition words_before (r : pystr * nat * nat) : nat := r.1.2.
Definition words_after (r : pystr * nat * nat) : nat := r.2.

(** ** Vocabulary of the statements *)

Definition no_space (w : pystr) : Prop := Forall (fun c => is_space c = false) w.

(** A word: what [split] returns, a non-empty run without whitespace. *)
Definition is_word (w : pystr) : Prop := w <> [] /\ no_space w.

(** The alphabet [a-z]. *)
Definition lowercase_letters (w : pystr) : Prop :=
  Forall (fun c => is_ascii_lower c = true) w.

#[local] Instance lowercase_letters_dec w : Decision (lowercase_letters w).
Proof. unfold lowercase_letters. apply _. Defined.

(** A non-empty token of lower-case letters. *)
Definition lowercase_word (w : pystr) : Prop := w <> [] /\ lowercase_letters w.

(** The alphabet of the text [clean_comment] gives to [remove_stopwords]:
    lower-case ASCII letters and whitespace. *)
Definition lowercase_or_space (s : pystr) : Prop :=
  Forall (fun c => is_ascii_lower c = true \/ is_space c = true) s.

(** The test of the loop of [remove_stopwords]: a token is appended when it
    is a negation word or is not a stopword. *)
Definition kept (negation stop : gset pystr) (w : pystr) : Prop :=
  w ∈ negation \/ w ∉ stop.

#[local] Instance kept_dec negation stop w : Decision (kept negation stop w).
Proof. unfold kept. apply _. Defined.

(** *** The last step of [clean_comment] *)

Definition squeeze_whitespace (text : pystr) : pystr := join (lit " ") (split text).

(** *** Runs of equal code points *)

(** A string as its runs: [(c, n)] stands for [n] copies of [c]. *)
Fixpoint expand_runs (runs : list (Z * nat)) : pystr :=
  match runs with
  | [] => []
  | (c, n) :: rest => repeat c n ++ expand_runs rest
  end.

(** Every run is non-empty and neighbouring runs differ in their code
    point, so the runs are the maximal ones. *)
Fixpoint maximal_runs (runs : list (Z * nat)) : Prop :=
  match runs with
  | [] => True
  | (c, n) :: rest =>
      (0 < n)%nat
      /\ match rest with (d, _) :: _ => c <> d | [] => True end
      /\ maximal_runs rest
  end.

(** The runs of a string. *)
Fixpoint runs_of (s : pystr) : list (Z * nat) :=
  match s with
  | [] => []
  | c :: rest =>
      match runs_of rest with
      | (d, n) :: runs => if c =? d then (d, S n) :: runs else (c, 1%nat) :: (d, n) :: runs
      | [] => [(c, 1%nat)]
      end
  end.

(** The string is empty or starts with a code point other than [c]. *)
Definition starts_other (c : Z) (s : pystr) : Prop :=
  match s with
  | [] => True
  | d :: _ => d <> c
  end.

(** The collapsing as the specification words it: every run of three or
    more becomes a run of two. *)
Definition claimed_collapse (r : Z * nat) : Z * nat := (r.1, Nat.min r.2 2).

(** The collapsing of [normalize_repeated_characters]: runs of newlines are
    left as they are. *)
Definition collapse (r : Z * nat) : Z * nat :=
  if r.1 =? NEWLINE then r else (r.1, Nat.min r.2 2).

(** *** The negation set without its entries that hold a space or an
    apostrophe *)

Definition single_word_negation_words : gset pystr :=
  list_to_set
    [ lit "not"; lit "no"; lit "never"; lit "none";
      lit "did"; lit "was"; lit "were"; lit "cannot"; lit "cant" ].

(** The entries left out. *)
Definition multi_word_negation_entries : list pystr :=
  [ lit "did not"; lit "was not"; lit "were not"; lit "can't";
    lit "should not"; lit "shouldn't"; lit "could not"; lit "couldn't";
    lit "would not"; lit "wouldn't" ].

(** [remove_stopwords] in a module whose [negation_words] literal is
    [single_word_negation_words]; [stop_words] is then the loaded corpus
    minus that set. *)
Definition remove_stopwords_single_words (L : Libraries) (text : pystr) : pystr :=
  let words := word_tokenize L text in
  let cleaned :=
    keep_words single_word_negation_words
      (stop_words_loaded L ∖ single_word_negation_words) words [] in
  join (lit " ") cleaned.

(** The alphabet of the cleaned text: lower-case letters and the space. *)
Definition cleaned_alphabet (s : pystr) : Prop :=
  Forall (fun c => is_ascii_lower c = true \/ c = SPACE) s.

(** *** Assumptions on the imported functions

    Each is a property of one field of [Libraries]; a theorem that needs
    one takes it as a hypothesis. *)

(** On a text of lower-case letters and whitespace the tokenizer returns
    tokens made of lower-case letters. *)
Definition tokens_lowercase (L : Libraries) : Prop :=
  forall text, lowercase_or_space text ->
    Forall lowercase_letters (word_tokenize L text).

(** On such a text no token is the empty string. *)
Definition tokens_nonempty (L : Libraries) : Prop :=
  forall text, lowercase_or_space text ->
    Forall (fun w => w <> []) (word_tokenize L text).

(** Tokens of such a text, some of them dropped and the rest joined with
    single spaces, are tokenized into themselves. *)
Definition retokenize_stable (L : Libraries) : Prop :=
  forall text words, lowercase_or_space text ->
    words `sublist_of` word_tokenize L text ->
    word_tokenize L (join (lit " ") words) = words.

(** No lower-case mapping of a code point above the ASCII range contains
    an upper-case ASCII letter. *)
Definition lower_no_ascii_upper (L : Libraries) : Prop :=
  forall before c after d, 128 <= c ->
    d ∈ unicode_lower L before c after -> is_ascii_upper d = false.

(** A text without an ampersand has no character reference to decode. *)
Definition unescape_needs_ampersand (L : Libraries) : Prop :=
  forall text, 38 ∉ text -> html_unescape L text = text.

(** A text of lower-case letters and whitespace holds no emoji. *)
Definition no_emoji_in_lowercase (L : Libraries) : Prop :=
  forall text replacement, lowercase_or_space text ->
    emoji_replace_emoji L text replacement = text.

(** The three imported text transforms leave [text] as it is. *)
Definition libraries_plain_on (L : Libraries) (text : pystr) : Prop :=
  contractions_fix L text = text
  /\ html_unescape L text = text
  /\ emoji_replace_emoji L text (lit " ") = text.

(** [w] is tokenized into itself and is not in the stopword corpus. *)
Definition plain_token (L : Libraries) (w : pystr) : Prop :=
  word_tokenize L w = [w] /\ w ∉ stopwords_words_english L.

(** *** An instance of [Libraries]

    A whitespace tokenizer, a short stopword list, an emoji replacer for
    the pictograph blocks, and the identity for the contraction and
    character-reference tables and for the case mapping above ASCII. *)

Definition sample_stopwords : list pystr :=
  map lit
    [ "i"; "me"; "my"; "myself"; "we"; "our"; "ours"; "ourselves"; "you";
      "your"; "yours"; "he"; "him"; "his"; "she"; "her"; "it"; "its";
      "they"; "them"; "their"; "what"; "which"; "who"; "whom"; "this";
      "that"; "these"; "those"; "am"; "is"; "are"; "was"; "were"; "be";
      "been"; "being"; "have"; "has"; "had"; "having"; "do"; "does"; "did";
      "doing"; "a"; "an"; "the"; "and"; "but"; "if"; "or"; "because"; "as";
      "until"; "while"; "of"; "at"; "by"; "for"; "with"; "about"; "to";
      "from"; "in"; "out"; "on"; "off"; "no"; "nor"; "not"; "only"; "so";
      "than"; "too"; "very"; "can"; "will"; "just"; "should"; "now" ]%string.

Definition sample_replace_emoji (text replacement : pystr) : pystr :=
  flat_map
    (fun c => if (127744 <=? c) && (c <=? 129791) then replacement else [c])
    text.

Definition sample_libraries : Libraries := {|
  stopwords_words_english := sample_stopwords;
  word_tokenize := split;
  contractions_fix := fun text => text;
  html_unescape := fun text => text;
  emoji_replace_emoji := sample_replace_emoji;
  unicode_lower := fun _ c _ => [c]
|}.

(** *** Inputs of the scenarios *)

(** ["I love this! 😍 <br> Amazing"]; the emoji is U+1F60D. *)
Definition scenario1 : pystr :=
  lit "I love this! " ++ [128525] ++ lit " <br> Amazing".

(** ** Further vocabulary *)

(** The text [clean_comment] gives to [remove_stopwords]. *)
Definition filter_input (L : Libraries) (text : pystr) : pystr :=
  remove_symbols
    (lowercase_text L
       (normalize_repeated_characters
          (remove_emojis L
             (remove_html_tags L (expand_contractions_text L text))))).

(** No [<] of the string starts a match of [<.*?>]. *)
Fixpoint tag_free (s : pystr) : Prop :=
  match s with
  | [] => True
  | c :: rest => (c = LT -> tag_rest rest = None) /\ tag_free rest
  end.

(** ** The batch driver: [src/main_pipeline.py]

    A data frame is the list of its rows.  Console output and the clock
    are left out; [processing_time] is an argument of the report. *)

(** A row of the frame [process_comments_vectorized] returns. *)
Record Row := {
  Original_Comment : pystr;
  Cleaned_Comment : pystr;
  Words_Before : Z;
  Words_After : Z;
  Words_Removed : Z;
  Cleaning_Success : pystr
}.

(** What [process_comments_vectorized] computes for the row of one
    comment. *)
Definition process_row (L : Libraries) (comment : pystr) : Row :=
  let result := clean_comment L comment in
  let cleaned := result.1.1 in
  let before := Z.of_nat result.1.2 in
  let after := Z.of_nat result.2 in
  {| Original_Comment := comment;
     Cleaned_Comment := cleaned;
     Words_Before := before;
     Words_After := after;
     Words_Removed := before - after;
     Cleaning_Success := flag_cleaning_success comment cleaned |}.

(** The frame returned for a column [Comment] that has at least one row
    (what pandas does with a frame without rows is not modelled; the
    theorems on the frame take a non-empty column). *)
Definition process_comments_vectorized (L : Libraries) (comments : list pystr)
  : list Row :=
  map (process_row L) comments.

(** The statistics of [generate_summary_report] that are integers. *)
Definition total_comments (df : list Row) : nat := length df.

Definition successful (df : list Row) : nat :=
  length (filter (fun row => Cleaning_Success row = lit "Success") df).

Definition failed (df : list Row) : nat :=
  length (filter (fun row => Cleaning_Success row = lit "Failed") df).

Definition total_words_removed (df : list Row) : Z :=
  foldr Z.add 0 (map Words_Removed df).

(** ** The data generator: [src/generate_large_dataset.py]

    What one pass of the loop body takes from [random]: the base phrase,
    the contraction and the additional phrase when one is added, the
    emojis of [random.choices], and the tag and the special characters
    (each the empty string when none is added). *)

Record Draw := {
  base : pystr;
  contraction : option pystr;
  additional : option pystr;
  emojis : list pystr;
  html : pystr;
  special : pystr
}.

(** The comment the loop body builds from its draws. *)
Definition comment_of (d : Draw) : pystr :=
  let comment_parts := [base d] in
  let comment_parts :=
    match contraction d with
    | Some c => comment_parts ++ [c]
    | None => comment_parts
    end in
  let comment_parts :=
    match additional d with
    | Some a => comment_parts ++ [a]
    | None => comment_parts
    end in
  let comment :=
    join (lit " ") comment_parts ++ lit " " ++ concat (emojis d)
      ++ lit " " ++ html d ++ special d in
  strip comment.

(** The loop of [generate_large_dataset]; [draws] holds the draws of the
    passes still allowed by [max_attempts]. *)
Fixpoint generate_loop (draws : list Draw) (num_comments : nat)
    (comments : list pystr) (used_combinations : gset pystr) (counter : nat)
  : list pystr :=
  match draws with
  | [] => comments
  | d :: rest =>
      if (counter <? num_comments)%nat
      then
        let comment := comment_of d in
        if bool_decide (comment ∉ used_combinations)
        then generate_loop rest num_comments (comments ++ [comment])
               ({[comment]} ∪ used_combinations) (S counter)
        else generate_loop rest num_comments comments used_combinations counter
      else comments
  end.

(** The column [Comment] of the frame [generate_large_dataset] returns;
    [rand n] is what pass [n] draws. *)
Definition generate_large_dataset (rand : nat -> Draw) (num_comments : nat)
  : list pystr :=
  let max_attempts := (num_comments * 10)%nat in
  generate_loop (map rand (seq 1 max_attempts)) num_comments [] ∅ 0%nat.

(** Draws for examples: the pass number picks one of two base phrases. *)
Definition sample_draw (n : nat) : Draw :=
  {| base := if Nat.even n then lit "Amazing quality" else lit "Not bad";
     contraction := if Nat.even n then Some (lit "don't") else None;
     additional := None;
     emojis := [[128525]];
     html := if Nat.even n then lit "<br>" else [];
     special := [] |}.

(** ** The stages in the words of the specification

    Each stage is described by what its result is, without the functions
    of the module: a relation between the text a stage receives and the
    text it returns. *)

Definition all_space (s : pystr) : Prop := Forall (fun c => is_space c = true) s.



(** [t] is the text stripped of surrounding whitespace: the text is
    whitespace, [t], whitespace, and [t] neither starts nor ends with
    whitespace. *)
Definition stripped_of_whitespace (s t : pystr) : Prop :=
  exists lead trail,
    s = lead ++ t ++ trail
    /\ all_space lead /\ all_space trail
    /\ (forall c r, t = c :: r -> is_space c = false)
    /\ (forall r c, t = r ++ [c] -> is_space c = false).







(** The stopword lexicon: the corpus without the negation words. *)
Definition in_stopword_lexicon (L : Libraries) (w : pystr) : Prop :=
  w ∈ stopwords_words_english L /\ w ∉ negation_words.

(** A token is kept when it is a negation word, and otherwise when it is
    not in the stopword lexicon. *)
Definition survives (L : Libraries) (w : pystr) : Prop :=
  w ∈ negation_words \/ ~ in_stopword_lexicon L w.

#[local] Instance survives_dec L w : Decision (survives L w).
Proof. unfold survives, in_stopword_lexicon. apply _. Defined.


(** *** An instance with the contraction rules of the Treebank tokenizer

    NLTK's [word_tokenize] splits the words [cannot], [gimme], [gonna],
    [gotta], [lemme] and [wanna] in two; on text of letters and whitespace
    the other tokens are the whitespace-separated words. *)

Definition treebank_contraction (w : pystr) : list pystr :=
  if decide (w = lit "cannot") then [lit "can"; lit "not"]
  else if decide (w = lit "gimme") then [lit "gim"; lit "me"]
  else if decide (w = lit "gonna") then [lit "gon"; lit "na"]
  else if decide (w = lit "gotta") then [lit "got"; lit "ta"]
  else if decide (w = lit "lemme") then [lit "lem"; lit "me"]
  else if decide (w = lit "wanna") then [lit "wan"; lit "na"]
  else [w].

Definition treebank_libraries : Libraries := {|
  stopwords_words_english := sample_stopwords;
  word_tokenize := fun text => flat_map treebank_contraction (split text);
  contractions_fix := fun text => text;
  html_unescape := fun text => text;
  emoji_replace_emoji := sample_replace_emoji;
  unicode_lower := fun _ c _ => [c]
|}.

(** * Properties *)

(** ** The string operations on small inputs *)

Example split_discards_empty_runs :
  split (lit "  I love   this! ") = [lit "I"; lit "love"; lit "this!"].
Proof. reflexivity. Qed.

Example strip_both_ends : strip (lit "  ok then  ") = lit "ok then".
Proof. reflexivity. Qed.

Example replace_inside_a_word :
  replace (lit "can not") (lit "cannot") (lit "I can not, pelican not")
  = lit "I cannot, pelicannot".
Proof. reflexivity. Qed.

Example sub_tags_keeps_inner_text :
  sub_tags 0 (lit "<div>Good</div> a < b") = lit " Good  a < b".
Proof. reflexivity. Qed.

Example sub_tags_stops_at_newline :
  sub_tags 0 [LT; 97; NEWLINE; 98; GT] = [LT; 97; NEWLINE; 98; GT].
Proof. reflexivity. Qed.

Example sub_repeats_is_case_sensitive :
  normalize_repeated_characters (lit "Gooood gooOod") = lit "Good gooOod".
Proof. reflexivity. Qed.

Example sub_non_letters_keeps_whitespace :
  remove_symbols (lit "it's 2 good!") = lit "it s   good ".
Proof. reflexivity. Qed.

(** ** Splitting and joining *)

Lemma split_from_sep cur a sp b :
  is_space sp = true ->
  split_from cur (a ++ sp :: b) = split_from cur a ++ split b.
Proof.
  intros Hsp. revert cur.
  induction a as [|c a IH]; intros cur; simpl.
  - rewrite Hsp. destruct cur; reflexivity.
  - destruct (is_space c).
    + destruct cur; simpl; rewrite IH; reflexivity.
    + apply IH.
Qed.

Lemma split_from_no_space cur w :
  no_space w ->
  split_from cur w = match cur ++ w with [] => [] | _ => [cur ++ w] end.
Proof.
  intros Hw. revert cur.
  induction Hw as [|c w Hc _ IH]; intros cur; simpl.
  - rewrite app_nil_r. reflexivity.
  - rewrite Hc, IH, <- app_assoc. reflexivity.
Qed.

Lemma split_word w : is_word w -> split w = [w].
Proof.
  intros [Hne Hw]. unfold split. rewrite split_from_no_space by assumption.
  simpl. destruct w; congruence.
Qed.

Lemma split_app_space a b : split (a ++ SPACE :: b) = split a ++ split b.
Proof. apply split_from_sep. reflexivity. Qed.

Lemma split_join (words : list pystr) :
  split (join (lit " ") words) = flat_map split words.
Proof.
  induction words as [|w [|w' rest] IH].
  - reflexivity.
  - simpl. rewrite app_nil_r. reflexivity.
  - change (join (lit " ") (w :: w' :: rest))
      with (w ++ SPACE :: join (lit " ") (w' :: rest)).
    rewrite split_app_space, IH. reflexivity.
Qed.

Lemma split_join_words (words : list pystr) :
  Forall is_word words -> split (join (lit " ") words) = words.
Proof.
  intros H. rewrite split_join.
  induction H as [|w rest Hw _ IH]; simpl.
  - reflexivity.
  - rewrite (split_word w Hw), IH. reflexivity.
Qed.

Lemma split_from_words cur s :
  no_space cur -> Forall is_word (split_from cur s).
Proof.
  revert cur. induction s as [|c s IH]; intros cur Hcur; simpl.
  - destruct cur; constructor; [|constructor]. split; [discriminate|assumption].
  - destruct (is_space c) eqn:Hc.
    + destruct cur.
      * apply IH. constructor.
      * constructor; [split; [discriminate|assumption]|]. apply IH. constructor.
    + apply IH. apply Forall_app. split; [assumption|]. repeat constructor. exact Hc.
Qed.

Lemma split_words s : Forall is_word (split s).
Proof. apply split_from_words. constructor. Qed.

Lemma split_from_chars cur s w c :
  w ∈ split_from cur s -> c ∈ w -> c ∈ cur ++ s.
Proof.
  revert cur. induction s as [|d s IH]; intros cur Hw Hc; simpl in Hw.
  - rewrite app_nil_r. destruct cur; [inversion Hw|].
    apply list_elem_of_singleton in Hw. subst. exact Hc.
  - destruct (is_space d).
    + destruct cur.
      * right. apply (IH [] Hw Hc).
      * apply elem_of_cons in Hw as [->|Hw].
        -- apply elem_of_app. left. exact Hc.
        -- apply elem_of_app. right. right. apply (IH [] Hw Hc).
    + specialize (IH _ Hw Hc). rewrite <- app_assoc in IH. exact IH.
Qed.

Lemma split_chars s w c : w ∈ split s -> c ∈ w -> c ∈ s.
Proof. apply (split_from_chars []). Qed.

(** ** The stopword filter *)

Lemma keep_words_filter negation stop words cleaned :
  keep_words negation stop words cleaned
  = cleaned ++ filter (kept negation stop) words.
Proof.
  revert cleaned. induction words as [|w rest IH]; intros cleaned; simpl.
  - rewrite app_nil_r. reflexivity.
  - rewrite filter_cons. unfold kept at 2.
    destruct (bool_decide_reflect (w ∈ negation)) as [Hn|Hn].
    + rewrite IH, <- app_assoc. rewrite decide_True by (left; exact Hn). reflexivity.
    + destruct (bool_decide_reflect (w ∉ stop)) as [Hs|Hs].
      * rewrite IH, <- app_assoc. rewrite decide_True by (right; exact Hs). reflexivity.
      * rewrite IH. rewrite decide_False by (intros [?|?]; contradiction). reflexivity.
Qed.

Lemma empty_not_negation : [] ∉ negation_words.
Proof. apply (bool_decide_unpack _). vm_compute. exact I. Qed.

(** What the loop guarantees for the tokens it is given: a negation word
    without whitespace that [word_tokenize] returns is one of the
    whitespace-separated tokens of the string [remove_stopwords] returns. *)
Lemma negation_token_survives (L : Libraries) (t text : pystr) :
  t ∈ negation_words ->
  no_space t ->
  t ∈ word_tokenize L text ->
  t ∈ split (remove_stopwords L text).
Proof.
  intros Hneg Hsp Htok.
  unfold remove_stopwords. rewrite keep_words_filter, split_join. simpl.
  apply list_elem_of_In, in_flat_map. exists t. split.
  - apply list_elem_of_In, list_elem_of_filter. split; [left; exact Hneg|exact Htok].
  - rewrite split_word; [left; reflexivity|].
    split; [|exact Hsp]. intros ->. exact (empty_not_negation Hneg).
Qed.

Lemma filter_agree (P1 P2 : pystr -> Prop)
    `{!forall w, Decision (P1 w), !forall w, Decision (P2 w)} (words : list pystr) :
  Forall (fun w => P1 w <-> P2 w) words -> filter P1 words = filter P2 words.
Proof.
  induction 1 as [|w rest Hw _ IH]; [reflexivity|].
  rewrite !filter_cons, IH. apply decide_ext. exact Hw.
Qed.

Lemma stop_words_spec (L : Libraries) (w : pystr) :
  w ∈ stop_words L <-> w ∈ stopwords_words_english L /\ w ∉ negation_words.
Proof.
  unfold stop_words, stop_words_loaded.
  rewrite elem_of_difference, elem_of_list_to_set. reflexivity.
Qed.

(** C9.  After the module is loaded [stop_words] and [negation_words] have
    no common element, whatever the stopword corpus holds. *)
Theorem stop_words_negation_words_disjoint (L : Libraries) :
  stop_words L ∩ negation_words = ∅.
Proof.
  apply set_eq. intros w. rewrite elem_of_intersection, stop_words_spec.
  split; [intros [[_ Hn] Hw]; contradiction|intros Hw; inversion Hw].
Qed.

(** ** The controller *)

(** C6.  With imported functions that map the empty string to the empty
    string (and to no token), the empty comment is cleaned to
    [("", 0, 0)] and flagged ["Failed"]. *)
Theorem clean_comment_empty (L : Libraries) :
  contractions_fix L [] = [] ->
  html_unescape L [] = [] ->
  emoji_replace_emoji L [] (lit " ") = [] ->
  word_tokenize L [] = [] ->
  clean_comment L [] = ([], 0%nat, 0%nat)
  /\ forall original_text,
       flag_cleaning_success original_text (cleaned_text (clean_comment L []))
       = lit "Failed".
Proof.
  intros Hfix Hunescape Hemoji Htok.
  assert (clean_comment L [] = ([], 0%nat, 0%nat)) as Hclean.
  { unfold clean_comment, expand_contractions_text, remove_html_tags,
      remove_emojis, remove_stopwords.
    rewrite Hfix. change (replace (lit "can not") (lit "cannot") []) with (@nil Z).
    rewrite Hunescape. change (sub_tags 0 []) with (@nil Z).
    rewrite Hemoji. change (normalize_repeated_characters []) with (@nil Z).
    change (remove_symbols (lowercase_text L [])) with (@nil Z).
    rewrite Htok. reflexivity. }
  split; [exact Hclean|]. intros original_text. rewrite Hclean. reflexivity.
Qed.

Lemma clean_comment_empty_witness :
  clean_comment sample_libraries [] = ([], 0%nat, 0%nat)
  /\ forall original_text,
       flag_cleaning_success original_text
         (cleaned_text (clean_comment sample_libraries [])) = lit "Failed".
Proof. apply clean_comment_empty; reflexivity. Defined.

Lemma negation_token_survives_witness :
  lit "not" ∈ split (remove_stopwords sample_libraries (lit "did not like it")).
Proof.
  apply negation_token_survives.
  - apply (bool_decide_unpack _). vm_compute. exact I.
  - repeat constructor.
  - apply (bool_decide_unpack _). vm_compute. exact I.
Defined.

(** ** The entries of [negation_words] that no token can equal *)

Lemma negation_words_split :
  negation_words
  = single_word_negation_words ∪ list_to_set multi_word_negation_entries.
Proof. apply (bool_decide_unpack _). vm_compute. exact I. Qed.

Lemma multi_word_entries_not_lowercase :
  Forall (fun entry => ~ lowercase_letters entry) multi_word_negation_entries.
Proof. apply (bool_decide_unpack _). vm_compute. exact I. Qed.

Lemma lowercase_negation_single (w : pystr) :
  lowercase_letters w ->
  (w ∈ negation_words <-> w ∈ single_word_negation_words).
Proof.
  intros Hw. rewrite negation_words_split, elem_of_union, elem_of_list_to_set.
  split; [|tauto]. intros [H|H]; [exact H|].
  destruct (proj1 (Forall_forall _ _) multi_word_entries_not_lowercase w H Hw).
Qed.

(** C10.  With a tokenizer that returns tokens of lower-case letters for a
    text of lower-case letters and whitespace, [remove_stopwords] returns
    for such a text what it returns in a module whose [negation_words] has
    only the nine single words. *)
Theorem multi_word_negation_entries_inert (L : Libraries) (text : pystr) :
  tokens_lowercase L ->
  lowercase_or_space text ->
  remove_stopwords L text = remove_stopwords_single_words L text.
Proof.
  intros Htok Htext.
  unfold remove_stopwords, remove_stopwords_single_words.
  rewrite !keep_words_filter. simpl. f_equal.
  apply filter_agree.
  eapply Forall_impl; [exact (Htok text Htext)|].
  intros w Hw. simpl. unfold kept.
  pose proof (lowercase_negation_single w Hw) as Hneg.
  rewrite stop_words_spec, elem_of_difference.
  unfold stop_words_loaded. rewrite elem_of_list_to_set. tauto.
Qed.

(** ** Collapsing repeated characters *)

Lemma sub_repeats_inside_run c n rest :
  sub_repeats (Some c) (repeat c n ++ rest) = sub_repeats (Some c) rest.
Proof.
  induction n as [|n IH]; [reflexivity|].
  simpl. rewrite Z.eqb_refl. exact IH.
Qed.

Lemma sub_repeats_leave_run c rest :
  starts_other c rest -> sub_repeats (Some c) rest = sub_repeats None rest.
Proof.
  destruct rest as [|d rest]; [reflexivity|]. simpl. intros Hd.
  apply Z.eqb_neq in Hd. rewrite Hd. reflexivity.
Qed.

Lemma starts_with_other c rest :
  starts_other c rest -> starts_with [c] rest = false.
Proof.
  destruct rest as [|d rest]; [reflexivity|]. simpl. intros Hd.
  rewrite Z.eqb_sym. apply Z.eqb_neq in Hd. rewrite Hd. reflexivity.
Qed.

Lemma sub_repeats_newlines n rest :
  sub_repeats None (repeat NEWLINE n ++ rest)
  = repeat NEWLINE n ++ sub_repeats None rest.
Proof.
  induction n as [|n IH]; [reflexivity|].
  change (repeat NEWLINE (S n) ++ rest) with (NEWLINE :: (repeat NEWLINE n ++ rest)).
  cbn [sub_repeats]. rewrite Z.eqb_refl. cbn [negb andb].
  rewrite IH. reflexivity.
Qed.

Lemma sub_repeats_start c rest :
  sub_repeats None (c :: rest)
  = if negb (c =? NEWLINE) && starts_with [c; c] rest
    then c :: c :: sub_repeats (Some c) rest
    else c :: sub_repeats None rest.
Proof. reflexivity. Qed.

Lemma sub_repeats_single c rest :
  starts_other c rest ->
  sub_repeats None (c :: rest) = c :: sub_repeats None rest.
Proof.
  intros Hrest. rewrite sub_repeats_start.
  replace (starts_with [c; c] rest) with false; [rewrite andb_false_r; reflexivity|].
  destruct rest as [|d rest]; [reflexivity|]. simpl in *.
  apply Z.eqb_neq in Hrest. rewrite Z.eqb_sym, Hrest. reflexivity.
Qed.

Lemma sub_repeats_pair c rest :
  starts_other c rest ->
  sub_repeats None (c :: c :: rest) = c :: c :: sub_repeats None rest.
Proof.
  intros Hrest. rewrite sub_repeats_start.
  change (starts_with [c; c] (c :: rest)) with ((c =? c) && starts_with [c] rest).
  rewrite (starts_with_other c rest Hrest), !andb_false_r.
  rewrite (sub_repeats_single c rest Hrest). reflexivity.
Qed.

Lemma sub_repeats_run c n rest :
  c <> NEWLINE -> (0 < n)%nat -> starts_other c rest ->
  sub_repeats None (repeat c n ++ rest)
  = repeat c (Nat.min n 2) ++ sub_repeats None rest.
Proof.
  intros Hc Hn Hrest.
  apply Z.eqb_neq in Hc.
  destruct n as [|[|[|k]]]; [lia| | |].
  - apply sub_repeats_single, Hrest.
  - apply sub_repeats_pair, Hrest.
  - change (repeat c (S (S (S k))) ++ rest)
      with (c :: c :: c :: (repeat c k ++ rest)).
    cbn [sub_repeats starts_with]. rewrite !Z.eqb_refl, Hc. cbn [negb andb].
    rewrite sub_repeats_inside_run, (sub_repeats_leave_run c rest Hrest).
    reflexivity.
Qed.

Lemma maximal_runs_next c n rest :
  maximal_runs ((c, n) :: rest) -> starts_other c (expand_runs rest).
Proof.
  intros (_ & Hnext & Hrest). destruct rest as [|[d m] rest]; [exact I|].
  destruct Hrest as (Hm & _). destruct m; [lia|]. simpl. congruence.
Qed.

Lemma expand_runs_of s : expand_runs (runs_of s) = s.
Proof.
  induction s as [|c s IH]; [reflexivity|].
  simpl. destruct (runs_of s) as [|[d n] runs].
  - simpl in *. subst. reflexivity.
  - destruct (Z.eqb_spec c d) as [->|Hne]; simpl in *; rewrite IH; reflexivity.
Qed.

Lemma maximal_runs_of s : maximal_runs (runs_of s).
Proof.
  induction s as [|c s IH]; [exact I|].
  simpl. destruct (runs_of s) as [|[d n] runs].
  - simpl. repeat split. lia.
  - destruct (Z.eqb_spec c d) as [->|Hne].
    + destruct IH as (Hn & Hnext & Hruns). simpl. repeat split; [lia|exact Hnext|exact Hruns].
    + simpl. repeat split; [lia|exact Hne|apply IH|apply IH|apply IH].
Qed.

Lemma sub_repeats_runs (runs : list (Z * nat)) :
  maximal_runs runs ->
  sub_repeats None (expand_runs runs) = expand_runs (map collapse runs).
Proof.
  induction runs as [|[c n] rest IH]; intros Hruns; [reflexivity|].
  pose proof (maximal_runs_next c n rest Hruns) as Hnext.
  destruct Hruns as (Hn & _ & Hrest). specialize (IH Hrest).
  cbn [expand_runs map]. unfold collapse at 1. cbn [fst snd].
  destruct (Z.eqb_spec c NEWLINE) as [->|Hc].
  - rewrite sub_repeats_newlines, IH. reflexivity.
  - rewrite sub_repeats_run by assumption. rewrite IH. reflexivity.
Qed.

(** C8 as the code has it.  Every maximal run of a code point other than
    newline that has three or more copies becomes two copies; runs of one
    or two, and runs of newlines, stay; nothing else changes. *)
Theorem normalize_repeated_characters_runs (runs : list (Z * nat)) :
  maximal_runs runs ->
  normalize_repeated_characters (expand_runs runs)
  = expand_runs (map collapse runs).
Proof. exact (sub_repeats_runs runs). Qed.

Lemma normalize_repeated_characters_runs_witness :
  let runs :=
    [ (115, 1%nat); (111, 5%nat); (32, 1%nat);
      (103, 1%nat); (111, 5%nat); (100, 1%nat) ] in
  expand_runs runs = lit "sooooo goooood"
  /\ normalize_repeated_characters (expand_runs runs) = lit "soo good".
Proof.
  split; [reflexivity|].
  apply (normalize_repeated_characters_runs
           [ (115, 1%nat); (111, 5%nat); (32, 1%nat);
             (103, 1%nat); (111, 5%nat); (100, 1%nat) ]).
  simpl. repeat split; lia.
Defined.

(** Every string is the expansion of its maximal runs, so this describes
    [normalize_repeated_characters] on every input. *)
Corollary collapse_runs_of (s : pystr) :
  normalize_repeated_characters s = expand_runs (map collapse (runs_of s)).
Proof.
  unfold normalize_repeated_characters.
  rewrite <- (expand_runs_of s) at 1.
  apply sub_repeats_runs, maximal_runs_of.
Qed.

(** C8 as stated fails for newlines: a run of three newlines stays three
    newlines, because [.] does not match a newline. *)
Lemma normalize_repeated_characters_newlines :
  normalize_repeated_characters (expand_runs [(NEWLINE, 3%nat)])
  <> expand_runs (map claimed_collapse [(NEWLINE, 3%nat)]).
Proof. vm_compute. discriminate. Qed.

(** ** The alphabet of the cleaned text *)

Lemma ascii_lower_not_upper c : is_ascii_upper (ascii_lower c) = false.
Proof.
  unfold ascii_lower, is_ascii_upper.
  destruct ((65 <=? c) && (c <=? 90)) eqn:H; [|exact H]. lia.
Qed.

Lemma lower_from_no_upper (L : Libraries) before s d :
  lower_no_ascii_upper L ->
  d ∈ lower_from L before s -> is_ascii_upper d = false.
Proof.
  intros HL. revert before.
  induction s as [|c s IH]; intros before Hd; simpl in Hd; [inversion Hd|].
  apply elem_of_app in Hd as [Hd|Hd]; [|exact (IH _ Hd)].
  destruct (Z.ltb_spec c 128) as [Hc|Hc].
  - apply list_elem_of_singleton in Hd. subst. apply ascii_lower_not_upper.
  - exact (HL before c s d Hc Hd).
Qed.

Lemma remove_symbols_alphabet s :
  Forall (fun c => is_ascii_upper c = false) s ->
  lowercase_or_space (remove_symbols s).
Proof.
  unfold lowercase_or_space, remove_symbols, sub_non_letters.
  induction 1 as [|c s Hc _ IH]; simpl; constructor; [|exact IH].
  unfold is_ascii_letter. rewrite Hc. simpl.
  destruct (is_ascii_lower c) eqn:Hl; simpl; [left; exact Hl|].
  destruct (is_space c) eqn:Hs; right; [exact Hs|reflexivity].
Qed.

Lemma filter_input_alphabet (L : Libraries) s :
  lower_no_ascii_upper L ->
  lowercase_or_space (remove_symbols (lowercase_text L s)).
Proof.
  intros HL. apply remove_symbols_alphabet, Forall_forall.
  intros d Hd. exact (lower_from_no_upper L [] s d HL Hd).
Qed.

Lemma lowercase_no_space w : lowercase_letters w -> no_space w.
Proof.
  intros Hw. eapply Forall_impl; [exact Hw|]. intros c Hc.
  unfold is_ascii_lower in Hc. unfold is_space. lia.
Qed.

Lemma join_chars (words : list pystr) c :
  c ∈ join (lit " ") words -> c = SPACE \/ exists w, w ∈ words /\ c ∈ w.
Proof.
  induction words as [|w [|w' rest] IH]; intros Hc.
  - inversion Hc.
  - right. exists w. split; [left|exact Hc].
  - change (join (lit " ") (w :: w' :: rest))
      with (w ++ SPACE :: join (lit " ") (w' :: rest)) in Hc.
    apply elem_of_app in Hc as [Hc|Hc].
    + right. exists w. split; [left|exact Hc].
    + apply elem_of_cons in Hc as [Hc|Hc]; [left; exact Hc|].
      destruct (IH Hc) as [?|(w0 & Hw0 & Hcw)]; [left; assumption|].
      right. exists w0. split; [right; exact Hw0|exact Hcw].
Qed.

(** The words [split] finds in a joined list of lower-case tokens are
    lower-case words. *)
Lemma split_join_lowercase (words : list pystr) :
  Forall lowercase_letters words ->
  Forall lowercase_word (split (join (lit " ") words)).
Proof.
  intros Hwords. apply Forall_forall. intros w Hw.
  pose proof (proj1 (Forall_forall _ _) (split_words _) w Hw) as [Hne Hsp].
  split; [exact Hne|]. apply Forall_forall. intros c Hc.
  destruct (join_chars words c (split_chars _ w c Hw Hc)) as [->|(w0 & Hw0 & Hcw)].
  - pose proof (proj1 (Forall_forall _ _) Hsp _ Hc) as Hn. discriminate Hn.
  - exact (proj1 (Forall_forall _ _) (proj1 (Forall_forall _ _) Hwords w0 Hw0) c Hcw).
Qed.

Lemma first_space w rest a b :
  SPACE ∉ w ->
  w ++ SPACE :: rest = a ++ SPACE :: b ->
  (a = w /\ b = rest) \/ exists a', a = w ++ SPACE :: a' /\ rest = a' ++ SPACE :: b.
Proof.
  revert a. induction w as [|x w IH]; intros a Hw Heq.
  - destruct a as [|y a]; simpl in *.
    + left. split; congruence.
    + right. exists a. split; congruence.
  - destruct a as [|y a]; simpl in Heq.
    + exfalso. injection Heq as Hx _. apply Hw. rewrite Hx. left.
    + injection Heq as -> Heq.
      destruct (IH a) as [[-> ->]|(a' & -> & ->)];
        [intros H; apply Hw; right; exact H|exact Heq| |].
      * left. split; reflexivity.
      * right. exists a'. split; reflexivity.
Qed.

Lemma lowercase_word_ends w :
  lowercase_word w ->
  (exists c w', w = c :: w' /\ is_ascii_lower c = true)
  /\ (exists w' c, w = w' ++ [c] /\ is_ascii_lower c = true)
  /\ SPACE ∉ w.
Proof.
  intros [Hne Hw]. repeat split.
  - destruct w as [|c w']; [congruence|]. exists c, w'.
    split; [reflexivity|]. inversion Hw; assumption.
  - destruct (exists_last Hne) as (w' & c & ->). exists w', c.
    split; [reflexivity|]. apply Forall_app in Hw as [_ Hw]. inversion Hw; assumption.
  - intros H. pose proof (proj1 (Forall_forall _ _) Hw _ H) as Hs. discriminate Hs.
Qed.

(** In a joined list of lower-case words every space stands between two
    letters. *)
Lemma join_spaces_between_letters (words : list pystr) a b :
  Forall lowercase_word words ->
  join (lit " ") words = a ++ SPACE :: b ->
  (exists a' c, a = a' ++ [c] /\ is_ascii_lower c = true)
  /\ (exists c b', b = c :: b' /\ is_ascii_lower c = true).
Proof.
  intros Hwords. revert a.
  induction Hwords as [|w rest Hw Hrest IH]; intros a Heq.
  - destruct a; discriminate Heq.
  - destruct (lowercase_word_ends w Hw) as (Hfirst & Hlast & Hsp).
    destruct rest as [|w' rest].
    + exfalso. apply Hsp. simpl in Heq. rewrite Heq.
      apply elem_of_app. right. left.
    + change (join (lit " ") (w :: w' :: rest))
        with (w ++ SPACE :: join (lit " ") (w' :: rest)) in Heq.
      destruct (first_space _ _ _ _ Hsp Heq) as [[-> ->]|(a' & -> & Hrest')].
      * split; [exact Hlast|].
        inversion Hrest as [|? ? Hw' _]; subst.
        destruct (lowercase_word_ends w' Hw') as ((c & w0 & -> & Hc) & _ & _).
        destruct rest; simpl; eauto.
      * destruct (IH a' Hrest') as ((a0 & c & -> & Hc) & Hb).
        split; [|exact Hb]. exists (w ++ SPACE :: a0), c.
        split; [|exact Hc]. rewrite <- app_assoc. reflexivity.
Qed.

(** The cleaned text is the kept tokens joined by single spaces. *)
Lemma cleaned_text_words (L : Libraries) (s : pystr) :
  lower_no_ascii_upper L -> tokens_lowercase L ->
  exists words, Forall lowercase_word words
    /\ cleaned_text (clean_comment L s) = join (lit " ") words.
Proof.
  intros Hlow Htok. eexists. split; [|reflexivity].
  unfold remove_stopwords. rewrite keep_words_filter. simpl.
  apply split_join_lowercase.
  apply Forall_forall. intros w Hw. apply list_elem_of_filter in Hw as [_ Hw].
  revert w Hw. apply Forall_forall. apply Htok. apply filter_input_alphabet, Hlow.
Qed.

(** C3.  With case tables that never map to an upper-case ASCII letter and
    a tokenizer that returns lower-case tokens for lower-case text, the
    cleaned text has only lower-case ASCII letters and single spaces, no
    two spaces in a row, and no space at either end. *)
Theorem clean_comment_alphabet_closure (L : Libraries) (s : pystr) :
  lower_no_ascii_upper L ->
  tokens_lowercase L ->
  let cleaned := cleaned_text (clean_comment L s) in
  (forall c, c ∈ cleaned -> is_ascii_lower c = true \/ c = SPACE)
  /\ (forall a b, cleaned <> a ++ SPACE :: SPACE :: b)
  /\ (forall b, cleaned <> SPACE :: b)
  /\ (forall a, cleaned <> a ++ [SPACE]).
Proof.
  intros Hlow Htok cleaned.
  destruct (cleaned_text_words L s Hlow Htok) as (words & Hwords & Heq).
  fold cleaned in Heq. rewrite Heq. repeat split.
  - intros c Hc. destruct (join_chars words c Hc) as [->|(w & Hw & Hcw)];
      [right; reflexivity|left].
    destruct (proj1 (Forall_forall _ _) Hwords w Hw) as [_ Hlw].
    exact (proj1 (Forall_forall _ _) Hlw c Hcw).
  - intros a b H.
    destruct (join_spaces_between_letters words a (SPACE :: b) Hwords H)
      as (_ & c & b' & Hb & Hc).
    injection Hb as <- _. discriminate Hc.
  - intros b H.
    destruct (join_spaces_between_letters words [] b Hwords H)
      as ((a' & c & Ha & _) & _).
    destruct a'; discriminate Ha.
  - intros a H.
    destruct (join_spaces_between_letters words a [] Hwords H)
      as (_ & c & b' & Hb & _).
    discriminate Hb.
Qed.

(** ** A second pass over the cleaned text *)

Lemma sub_tags_no_tag s : LT ∉ s -> sub_tags 0 s = s.
Proof.
  induction s as [|c s IH]; intros Hs; [reflexivity|]. simpl.
  destruct (Z.eqb_spec c LT) as [->|_]; [exfalso; apply Hs; left|].
  rewrite IH; [reflexivity|]. intros H. apply Hs. right. exact H.
Qed.

Lemma lower_from_cleaned (L : Libraries) before s :
  cleaned_alphabet s -> lower_from L before s = s.
Proof.
  intros Hs. revert before.
  induction Hs as [|c s Hc _ IH]; intros before; [reflexivity|].
  simpl. rewrite IH.
  assert (97 <= c <= 122 \/ c = 32) as Hrange
    by (destruct Hc as [Hc|Hc]; [unfold is_ascii_lower in Hc; lia|right; exact Hc]).
  replace (c <? 128) with true by lia.
  replace (ascii_lower c) with c; [reflexivity|].
  unfold ascii_lower, is_ascii_upper.
  replace ((65 <=? c) && (c <=? 90)) with false by lia. reflexivity.
Qed.

Lemma remove_symbols_cleaned s : cleaned_alphabet s -> remove_symbols s = s.
Proof.
  unfold remove_symbols, sub_non_letters.
  induction 1 as [|c s Hc _ IH]; [reflexivity|]. simpl. rewrite IH.
  replace (is_ascii_letter c || is_space c) with true; [reflexivity|].
  destruct Hc as [Hc| ->]; [|reflexivity].
  unfold is_ascii_letter. rewrite Hc, orb_true_r. reflexivity.
Qed.

Lemma cleaned_alphabet_lowercase_or_space s :
  cleaned_alphabet s -> lowercase_or_space s.
Proof.
  intros Hs. eapply Forall_impl; [exact Hs|]. intros c [Hc| ->];
    [left; exact Hc|right; reflexivity].
Qed.

Lemma join_cleaned_alphabet (words : list pystr) :
  Forall lowercase_letters words -> cleaned_alphabet (join (lit " ") words).
Proof.
  intros Hwords. apply Forall_forall. intros c Hc.
  destruct (join_chars words c Hc) as [->|(w & Hw & Hcw)];
    [right; reflexivity|left].
  exact (proj1 (Forall_forall _ _) (proj1 (Forall_forall _ _) Hwords w Hw) c Hcw).
Qed.

Lemma filter_kept_twice negation stop (words : list pystr) :
  filter (kept negation stop) (filter (kept negation stop) words)
  = filter (kept negation stop) words.
Proof. apply list_filter_filter_l. tauto. Qed.

(** C4 as the code has it.  With case tables that never map to an
    upper-case ASCII letter, a tokenizer that returns non-empty lower-case
    tokens for lower-case text and tokenizes its own kept tokens into
    themselves, a character-reference decoder that needs an ampersand and
    an emoji replacer that finds no emoji in lower-case text: when
    contraction expansion and repeated-character collapsing leave the
    cleaned text of [s] as it is, cleaning that text again returns it. *)
Theorem clean_comment_second_pass (L : Libraries) (s : pystr) :
  lower_no_ascii_upper L ->
  tokens_lowercase L ->
  tokens_nonempty L ->
  retokenize_stable L ->
  unescape_needs_ampersand L ->
  no_emoji_in_lowercase L ->
  let cleaned := cleaned_text (clean_comment L s) in
  expand_contractions_text L cleaned = cleaned ->
  normalize_repeated_characters cleaned = cleaned ->
  cleaned_text (clean_comment L cleaned) = cleaned.
Proof.
  intros Hlow Htok Hne Hstable Hunescape Hemoji cleaned.
  set (text := remove_symbols (lowercase_text L
                 (normalize_repeated_characters (remove_emojis L
                    (remove_html_tags L (expand_contractions_text L s)))))).
  set (words := filter (kept negation_words (stop_words L)) (word_tokenize L text)).
  assert (lowercase_or_space text) as Htext by apply filter_input_alphabet, Hlow.
  assert (words `sublist_of` word_tokenize L text) as Hsub by apply sublist_filter.
  assert (Forall lowercase_letters words) as Hletters.
  { apply Forall_forall. intros w Hw.
    exact (proj1 (Forall_forall _ _) (Htok text Htext) w (elem_of_sublist _ _ _ Hw Hsub)). }
  assert (Forall is_word words) as Hwords.
  { apply Forall_forall. intros w Hw. split.
    - exact (proj1 (Forall_forall _ _) (Hne text Htext) w (elem_of_sublist _ _ _ Hw Hsub)).
    - apply lowercase_no_space. exact (proj1 (Forall_forall _ _) Hletters w Hw). }
  assert (cleaned = join (lit " ") words) as Hcleaned.
  { unfold cleaned, clean_comment, cleaned_text, remove_stopwords. simpl.
    rewrite keep_words_filter. simpl. fold text. fold words.
    rewrite split_join_words by exact Hwords. reflexivity. }
  assert (cleaned_alphabet cleaned) as Halpha
    by (rewrite Hcleaned; apply join_cleaned_alphabet, Hletters).
  intros Hexpand Hcollapse.
  unfold clean_comment, cleaned_text. simpl.
  rewrite Hexpand. unfold remove_html_tags.
  rewrite Hunescape, sub_tags_no_tag.
  - unfold remove_emojis.
    rewrite Hemoji by apply cleaned_alphabet_lowercase_or_space, Halpha.
    rewrite Hcollapse. unfold lowercase_text.
    rewrite lower_from_cleaned by exact Halpha.
    rewrite remove_symbols_cleaned by exact Halpha.
    unfold remove_stopwords. rewrite keep_words_filter. simpl.
    rewrite Hcleaned at 1. rewrite (Hstable text words Htext Hsub).
    unfold words at 1. rewrite filter_kept_twice. fold words.
    rewrite split_join_words by exact Hwords. symmetry. exact Hcleaned.
  - intros H. destruct (proj1 (Forall_forall _ _) Halpha _ H) as [Hc|Hc]; discriminate Hc.
  - intros H. destruct (proj1 (Forall_forall _ _) Halpha _ H) as [Hc|Hc]; discriminate Hc.
Qed.

(** ** The sample instance meets the assumptions *)

Lemma sample_lower_no_ascii_upper : lower_no_ascii_upper sample_libraries.
Proof.
  intros before c after d Hc Hd. simpl in Hd.
  apply list_elem_of_singleton in Hd. subst. unfold is_ascii_upper. lia.
Qed.

Lemma sample_tokens_lowercase : tokens_lowercase sample_libraries.
Proof.
  intros text Htext. simpl. apply Forall_forall. intros w Hw.
  apply Forall_forall. intros c Hc.
  destruct (proj1 (Forall_forall _ _) Htext c (split_chars text w c Hw Hc))
    as [Hl|Hs]; [exact Hl|].
  destruct (proj1 (Forall_forall _ _) (split_words text) w Hw) as [_ Hsp].
  rewrite (proj1 (Forall_forall _ _) Hsp c Hc) in Hs. discriminate Hs.
Qed.

Lemma sample_tokens_nonempty : tokens_nonempty sample_libraries.
Proof.
  intros text _. simpl. eapply Forall_impl; [apply split_words|].
  intros w [Hne _]. exact Hne.
Qed.

Lemma sample_retokenize_stable : retokenize_stable sample_libraries.
Proof.
  intros text words _ Hsub. simpl in *. apply split_join_words.
  apply Forall_forall. intros w Hw.
  exact (proj1 (Forall_forall _ _) (split_words text) w (elem_of_sublist _ _ _ Hw Hsub)).
Qed.

Lemma sample_unescape_needs_ampersand : unescape_needs_ampersand sample_libraries.
Proof. intros text _. reflexivity. Qed.

Lemma sample_no_emoji_in_lowercase : no_emoji_in_lowercase sample_libraries.
Proof.
  intros text replacement Htext. simpl. unfold sample_replace_emoji.
  induction Htext as [|c text Hc _ IH]; [reflexivity|]. simpl. rewrite IH.
  replace ((127744 <=? c) && (c <=? 129791)) with false; [reflexivity|].
  destruct Hc as [Hc|Hc]; [unfold is_ascii_lower in Hc|unfold is_space in Hc]; lia.
Qed.

(** ** Witnesses and the inputs on which a claim fails *)

Lemma clean_comment_alphabet_closure_witness :
  let cleaned := cleaned_text (clean_comment sample_libraries scenario1) in
  (forall c, c ∈ cleaned -> is_ascii_lower c = true \/ c = SPACE)
  /\ (forall a b, cleaned <> a ++ SPACE :: SPACE :: b)
  /\ (forall b, cleaned <> SPACE :: b)
  /\ (forall a, cleaned <> a ++ [SPACE]).
Proof.
  exact (clean_comment_alphabet_closure sample_libraries scenario1
           sample_lower_no_ascii_upper sample_tokens_lowercase).
Defined.

Lemma multi_word_negation_entries_inert_witness :
  remove_stopwords sample_libraries (lit "i did not like it")
  = remove_stopwords_single_words sample_libraries (lit "i did not like it").
Proof.
  apply multi_word_negation_entries_inert.
  - exact sample_tokens_lowercase.
  - apply (bool_decide_unpack _). vm_compute. exact I.
Defined.

Lemma clean_comment_second_pass_witness :
  let cleaned :=
    cleaned_text (clean_comment sample_libraries (lit "It was NOT good!!")) in
  cleaned = lit "was not good"
  /\ cleaned_text (clean_comment sample_libraries cleaned) = cleaned.
Proof.
  split; [reflexivity|].
  apply (clean_comment_second_pass sample_libraries (lit "It was NOT good!!")
           sample_lower_no_ascii_upper sample_tokens_lowercase
           sample_tokens_nonempty sample_retokenize_stable
           sample_unescape_needs_ampersand sample_no_emoji_in_lowercase);
    reflexivity.
Defined.

(** A comment the imported functions leave alone and whose filter input is
    one token outside the stopword corpus is cleaned to that token. *)
Lemma clean_comment_plain_token (L : Libraries) (text w : pystr) :
  libraries_plain_on L text ->
  replace (lit "can not") (lit "cannot") text = text ->
  sub_tags 0 text = text ->
  remove_symbols (lowercase_text L (normalize_repeated_characters text)) = w ->
  plain_token L w ->
  cleaned_text (clean_comment L text) = join (lit " ") (split w).
Proof.
  intros (Hfix & Hunescape & Hemoji) Hreplace Htags Hw [Htok Hstop].
  unfold clean_comment, cleaned_text, expand_contractions_text,
    remove_html_tags, remove_emojis, remove_stopwords. simpl.
  rewrite Hfix, Hreplace, Hunescape, Htags, Hemoji, Hw, Htok.
  rewrite keep_words_filter, filter_cons_True, filter_nil; [reflexivity|].
  right. rewrite stop_words_spec. tauto.
Qed.

(** Collapsing runs before lower-casing leaves a run for the next pass:
    ["gooOod"] is cleaned to ["gooood"], and ["gooood"] to ["good"],
    whenever the imported functions leave these strings alone. *)
Lemma second_pass_collapses (L : Libraries) :
  libraries_plain_on L (lit "gooOod") ->
  libraries_plain_on L (lit "gooood") ->
  plain_token L (lit "gooood") ->
  plain_token L (lit "good") ->
  cleaned_text (clean_comment L (lit "gooOod")) = lit "gooood"
  /\ cleaned_text (clean_comment L (lit "gooood")) = lit "good".
Proof.
  intros H1 H2 T1 T2. split.
  - apply (clean_comment_plain_token L (lit "gooOod") (lit "gooood") H1);
      solve [reflexivity|exact T1].
  - apply (clean_comment_plain_token L (lit "gooood") (lit "good") H2);
      solve [reflexivity|exact T2].
Qed.

(** C4 as stated fails: the cleaned text of ["gooOod"] is ["gooood"], and
    cleaning ["gooood"] gives ["good"]. *)
Lemma clean_comment_not_idempotent :
  cleaned_text
    (clean_comment sample_libraries
       (cleaned_text (clean_comment sample_libraries (lit "gooOod"))))
  <> cleaned_text (clean_comment sample_libraries (lit "gooOod")).
Proof. vm_compute. discriminate. Qed.

(** The replacement of ["can not"] acts on a second pass too: the cleaned
    text of ["pelican, not good"] is ["pelican not good"], which is cleaned
    to ["pelicannot good"]. *)
Lemma second_pass_joins_can_not :
  cleaned_text (clean_comment sample_libraries (lit "pelican, not good"))
  = lit "pelican not good"
  /\ cleaned_text (clean_comment sample_libraries (lit "pelican not good"))
     = lit "pelicannot good".
Proof. split; reflexivity. Qed.

(** ** Scenario 1 *)

(** C5 as the code has it.  When the imported functions leave the comment
    of scenario 1 alone but for the emoji, the tokenizer splits the filter
    input at its whitespace, and the corpus has ["i"] and ["this"] but not
    ["love"] or ["amazing"], the cleaned text is ["love amazing"] with six
    words before and two after. *)
Theorem clean_comment_scenario1 (L : Libraries) :
  contractions_fix L scenario1 = scenario1 ->
  html_unescape L scenario1 = scenario1 ->
  emoji_replace_emoji L (lit "I love this! " ++ [128525] ++ lit "   Amazing") (lit " ")
  = lit "I love this!     Amazing" ->
  word_tokenize L (lit "i love this   amazing")
  = [lit "i"; lit "love"; lit "this"; lit "amazing"] ->
  lit "i" ∈ stopwords_words_english L ->
  lit "this" ∈ stopwords_words_english L ->
  lit "love" ∉ stopwords_words_english L ->
  lit "amazing" ∉ stopwords_words_english L ->
  clean_comment L scenario1 = (lit "love amazing", 6%nat, 2%nat).
Proof.
  intros Hfix Hunescape Hemoji Htok Hi Hthis Hlove Hamazing.
  assert (expand_contractions_text L scenario1 = scenario1) as E1
    by (unfold expand_contractions_text; rewrite Hfix; reflexivity).
  assert (remove_html_tags L scenario1
          = lit "I love this! " ++ [128525] ++ lit "   Amazing") as E2
    by (unfold remove_html_tags; rewrite Hunescape; reflexivity).
  assert (forall w, w ∉ negation_words -> w ∈ stopwords_words_english L ->
            ~ kept negation_words (stop_words L) w) as Hdrop
    by (intros w Hn Hs [?|Hk]; [contradiction|apply Hk, stop_words_spec; tauto]).
  assert (forall w, w ∉ stopwords_words_english L ->
            kept negation_words (stop_words L) w) as Hkeep
    by (intros w Hs; right; rewrite stop_words_spec; tauto).
  assert (remove_stopwords L (lit "i love this   amazing") = lit "love amazing") as E3.
  { unfold remove_stopwords. rewrite Htok, keep_words_filter.
    rewrite filter_cons_False, filter_cons_True, filter_cons_False,
      filter_cons_True, filter_nil; auto.
    - apply Hdrop; [|exact Hthis]. apply (bool_decide_unpack _). vm_compute. exact I.
    - apply Hdrop; [|exact Hi]. apply (bool_decide_unpack _). vm_compute. exact I. }
  unfold clean_comment. cbv zeta. rewrite E1, E2. unfold remove_emojis.
  rewrite Hemoji.
  change (normalize_repeated_characters (lit "I love this!     Amazing"))
    with (lit "I love this!  Amazing").
  change (remove_symbols (lowercase_text L (lit "I love this!  Amazing")))
    with (lit "i love this   amazing").
  rewrite E3. reflexivity.
Qed.

Lemma clean_comment_scenario1_witness :
  clean_comment sample_libraries scenario1 = (lit "love amazing", 6%nat, 2%nat).
Proof.
  apply clean_comment_scenario1; try reflexivity;
    apply (bool_decide_unpack _); vm_compute; exact I.
Defined.

(** C5 as stated fails: the raw text of scenario 1 has six
    whitespace-separated tokens (the emoji and the tag are tokens), so
    [words_before] is not 5, whatever the imported functions do. *)
Lemma scenario1_words_before_not_five :
  ~ exists L : Libraries, words_before (clean_comment L scenario1) = 5%nat.
Proof. intros [L H]. vm_compute in H. discriminate H. Qed.

(** * Further properties of the module and of its callers *)

(** ** Whitespace: [split], [strip] and the squeezing step *)

Lemma split_from_nil cur s :
  split_from cur s = [] <-> cur = [] /\ Forall (fun c => is_space c = true) s.
Proof.
  revert cur. induction s as [|c s IH]; intros cur; simpl.
  - destruct cur.
    + split; [intros _; split; [reflexivity|constructor]|reflexivity].
    + split; [discriminate|intros [H _]; discriminate H].
  - destruct (is_space c) eqn:Hc.
    + destruct cur.
      * rewrite IH. split; intros [? H]; split; try reflexivity.
        -- constructor; assumption.
        -- inversion H; assumption.
      * split; [discriminate|intros [? _]; discriminate].
    + rewrite IH. split.
      * intros [H _]. destruct cur; discriminate H.
      * intros [_ H]. inversion H; congruence.
Qed.

Lemma lstrip_nil s : lstrip s = [] <-> Forall (fun c => is_space c = true) s.
Proof.
  induction s as [|c s IH]; simpl.
  - split; [constructor|reflexivity].
  - destruct (is_space c) eqn:Hc.
    + rewrite IH. split; [constructor; assumption|inversion 1; assumption].
    + split; [discriminate|inversion 1; congruence].
Qed.

Lemma lstrip_head s :
  match lstrip s with [] => True | c :: _ => is_space c = false end.
Proof.
  induction s as [|c s IH]; simpl; [exact I|].
  destruct (is_space c) eqn:Hc; [exact IH|exact Hc].
Qed.

Lemma strip_nil s : strip s = [] <-> Forall (fun c => is_space c = true) s.
Proof.
  unfold strip. rewrite <- lstrip_nil.
  split.
  - intros H. apply (f_equal (@rev Z)) in H. rewrite rev_involutive in H.
    simpl in H. apply lstrip_nil in H. apply Forall_rev in H.
    rewrite rev_involutive in H. apply lstrip_nil in H.
    pose proof (lstrip_head s) as Hh. destruct (lstrip s); [reflexivity|].
    simpl in H. rewrite Hh in H. discriminate H.
  - intros ->. reflexivity.
Qed.

(** X1.  [flag_cleaning_success] answers ["Failed"] exactly for the texts
    in which [count_words] counts no word, and ["Success"] exactly for
    those in which it counts at least one. *)
Theorem flag_failed_iff_no_words (original_text cleaned_text : pystr) :
  (flag_cleaning_success original_text cleaned_text = lit "Failed"
   <-> count_words cleaned_text = 0%nat)
  /\ (flag_cleaning_success original_text cleaned_text = lit "Success"
      <-> (0 < count_words cleaned_text)%nat).
Proof.
  assert (strip cleaned_text = [] <-> count_words cleaned_text = 0%nat) as H.
  { rewrite strip_nil. unfold count_words, split.
    rewrite length_zero_iff_nil, split_from_nil. tauto. }
  unfold flag_cleaning_success.
  destruct (strip cleaned_text) as [|c rest].
  - assert (count_words cleaned_text = 0%nat) as Hc by (apply H; reflexivity).
    rewrite Hc. repeat split; try reflexivity; try discriminate; lia.
  - assert (0 < count_words cleaned_text)%nat as Hc.
    { destruct (count_words cleaned_text); [|lia].
      destruct H as [_ H]. discriminate H. reflexivity. }
    repeat split; try reflexivity; try discriminate; try lia; intros _; exact Hc.
Qed.

(** X2.  Squeezing the whitespace keeps the words: [split] finds in
    [" ".join(text.split())] the words of [text], so the word count is
    unchanged, and squeezing twice is squeezing once. *)
Theorem squeeze_whitespace_keeps_words (text : pystr) :
  split (squeeze_whitespace text) = split text
  /\ count_words (squeeze_whitespace text) = count_words text
  /\ squeeze_whitespace (squeeze_whitespace text) = squeeze_whitespace text.
Proof.
  assert (split (squeeze_whitespace text) = split text) as H
    by apply split_join_words, split_words.
  repeat split; [exact H|unfold count_words; rewrite H; reflexivity|].
  unfold squeeze_whitespace at 1. rewrite H. reflexivity.
Qed.

(** X3.  The words of two texts put together with a whitespace code point
    between them are the words of the first followed by the words of the
    second, and the counts add up. *)
Theorem count_words_concat (a b : pystr) (sp : Z) :
  is_space sp = true ->
  split (a ++ sp :: b) = split a ++ split b
  /\ count_words (a ++ sp :: b) = (count_words a + count_words b)%nat.
Proof.
  intros Hsp. unfold count_words.
  rewrite (split_from_sep [] a sp b Hsp : split (a ++ sp :: b) = _).
  rewrite length_app. split; reflexivity.
Qed.

Lemma count_words_concat_witness :
  count_words (lit "not bad" ++ 9 :: lit "at all") = 4%nat.
Proof.
  exact (proj2 (count_words_concat (lit "not bad") (lit "at all") 9 eq_refl)).
Defined.

Lemma word_ends w :
  is_word w ->
  (exists c w', w = c :: w' /\ is_space c = false)
  /\ (exists w' c, w = w' ++ [c] /\ is_space c = false)
  /\ SPACE ∉ w.
Proof.
  intros [Hne Hw]. repeat split.
  - destruct w as [|c w']; [congruence|]. exists c, w'.
    split; [reflexivity|]. inversion Hw; assumption.
  - destruct (exists_last Hne) as (w' & c & ->). exists w', c.
    split; [reflexivity|]. apply Forall_app in Hw as [_ Hw]. inversion Hw; assumption.
  - intros H. pose proof (proj1 (Forall_forall _ _) Hw _ H) as Hs. discriminate Hs.
Qed.

(** In a joined list of words every space stands between two code points
    that are not whitespace. *)
Lemma join_spaces_between_words (words : list pystr) a b :
  Forall is_word words ->
  join (lit " ") words = a ++ SPACE :: b ->
  (exists a' c, a = a' ++ [c] /\ is_space c = false)
  /\ (exists c b', b = c :: b' /\ is_space c = false).
Proof.
  intros Hwords. revert a.
  induction Hwords as [|w rest Hw Hrest IH]; intros a Heq.
  - destruct a; discriminate Heq.
  - destruct (word_ends w Hw) as (Hfirst & Hlast & Hsp).
    destruct rest as [|w' rest].
    + exfalso. apply Hsp. simpl in Heq. rewrite Heq.
      apply elem_of_app. right. left.
    + change (join (lit " ") (w :: w' :: rest))
        with (w ++ SPACE :: join (lit " ") (w' :: rest)) in Heq.
      destruct (first_space _ _ _ _ Hsp Heq) as [[-> ->]|(a' & -> & Hrest')].
      * split; [exact Hlast|].
        inversion Hrest as [|? ? Hw' _]; subst.
        destruct (word_ends w' Hw') as ((c & w0 & -> & Hc) & _ & _).
        destruct rest; simpl; eauto.
      * destruct (IH a' Hrest') as ((a0 & c & -> & Hc) & Hb).
        split; [|exact Hb]. exists (w ++ SPACE :: a0), c.
        split; [|exact Hc]. rewrite <- app_assoc. reflexivity.
Qed.

Lemma join_words_whitespace (words : list pystr) c :
  Forall is_word words ->
  c ∈ join (lit " ") words -> is_space c = true -> c = SPACE.
Proof.
  intros Hwords Hc Hsp.
  destruct (join_chars words c Hc) as [->|(w & Hw & Hcw)]; [reflexivity|].
  destruct (proj1 (Forall_forall _ _) Hwords w Hw) as [_ Hns].
  rewrite (proj1 (Forall_forall _ _) Hns c Hcw) in Hsp. discriminate Hsp.
Qed.

Lemma lstrip_id s :
  match s with [] => True | c :: _ => is_space c = false end -> lstrip s = s.
Proof. destruct s as [|c s]; [reflexivity|]. simpl. intros ->. reflexivity. Qed.

Lemma strip_join_words (words : list pystr) :
  Forall is_word words -> strip (join (lit " ") words) = join (lit " ") words.
Proof.
  intros Hwords. set (t := join (lit " ") words).
  assert (forall c, c ∈ t -> is_space c = true -> c = SPACE) as Hws
    by (intros c; apply join_words_whitespace, Hwords).
  unfold strip. rewrite (lstrip_id t).
  - rewrite lstrip_id; [apply rev_involutive|].
    destruct (rev t) as [|c r] eqn:E; [exact I|].
    apply (f_equal (@rev Z)) in E. rewrite rev_involutive in E. simpl in E.
    destruct (is_space c) eqn:Hc; [|reflexivity]. exfalso.
    assert (c = SPACE) as -> by (apply Hws; [rewrite E; apply elem_of_app; right; left|exact Hc]).
    destruct (join_spaces_between_words words (rev r) [] Hwords E)
      as (_ & d & b' & Hb & _). discriminate Hb.
  - destruct t as [|c r] eqn:E; [exact I|].
    destruct (is_space c) eqn:Hc; [|reflexivity]. exfalso.
    assert (c = SPACE) as -> by (apply Hws; [left|exact Hc]).
    destruct (join_spaces_between_words words [] r Hwords E)
      as ((a' & d & Ha & _) & _). destruct a'; discriminate Ha.
Qed.

(** X4.  Whatever the imported functions return, the cleaned text has no
    whitespace but the space, no two spaces in a row and no space at
    either end; [strip] leaves it as it is. *)
Theorem cleaned_text_single_spaced (L : Libraries) (s : pystr) :
  let cleaned := cleaned_text (clean_comment L s) in
  (forall c, c ∈ cleaned -> is_space c = true -> c = SPACE)
  /\ (forall a b, cleaned <> a ++ SPACE :: SPACE :: b)
  /\ (forall b, cleaned <> SPACE :: b)
  /\ (forall a, cleaned <> a ++ [SPACE])
  /\ strip cleaned = cleaned.
Proof.
  intros cleaned.
  assert (exists words, Forall is_word words /\ cleaned = join (lit " ") words)
    as (words & Hwords & ->) by (eexists; split; [apply split_words|reflexivity]).
  repeat split.
  - intros c. apply join_words_whitespace, Hwords.
  - intros a b H.
    destruct (join_spaces_between_words words a (SPACE :: b) Hwords H)
      as (_ & c & b' & Hb & Hc).
    injection Hb as <- _. discriminate Hc.
  - intros b H.
    destruct (join_spaces_between_words words [] b Hwords H)
      as ((a' & c & Ha & _) & _).
    destruct a'; discriminate Ha.
  - intros a H.
    destruct (join_spaces_between_words words a [] Hwords H)
      as (_ & c & b' & Hb & _).
    discriminate Hb.
  - apply strip_join_words, Hwords.
Qed.

(** ** The stopword filter in terms of the loaded corpus *)

(** X5.  [remove_stopwords] drops exactly the tokens that are in the loaded
    stopword corpus and not in [negation_words], and keeps the others in
    their order; the test on [negation_words] in the loop changes nothing,
    since [stop_words] has no negation word. *)
Theorem remove_stopwords_by_corpus (L : Libraries) (text : pystr) :
  remove_stopwords L text
  = join (lit " ")
      (filter (fun w => w ∈ negation_words \/ w ∉ stopwords_words_english L)
              (word_tokenize L text))
  /\ remove_stopwords L text
     = join (lit " ") (filter (fun w => w ∉ stop_words L) (word_tokenize L text)).
Proof.
  unfold remove_stopwords. rewrite keep_words_filter. simpl.
  split; f_equal; apply list_filter_iff; intros w; unfold kept;
    rewrite stop_words_spec; destruct (decide (w ∈ negation_words)); tauto.
Qed.

(** X6.  When the tokenizer returns words (non-empty, without whitespace)
    for the filter input of a comment, [words_after] is the number of
    tokens the filter keeps, which is at most the number of tokens. *)
Theorem words_after_counts_kept_tokens (L : Libraries) (s : pystr) :
  Forall is_word (word_tokenize L (filter_input L s)) ->
  words_after (clean_comment L s)
  = length (filter (kept negation_words (stop_words L))
                   (word_tokenize L (filter_input L s)))
  /\ (words_after (clean_comment L s)
      <= length (word_tokenize L (filter_input L s)))%nat.
Proof.
  intros Hwords.
  set (tokens := word_tokenize L (filter_input L s)) in *.
  assert (Forall is_word (filter (kept negation_words (stop_words L)) tokens)) as Hkept.
  { apply Forall_forall. intros w Hw. apply list_elem_of_filter in Hw as [_ Hw].
    exact (proj1 (Forall_forall _ _) Hwords w Hw). }
  assert (words_after (clean_comment L s)
          = length (filter (kept negation_words (stop_words L)) tokens)) as H.
  { unfold words_after, clean_comment, count_words, remove_stopwords. simpl.
    rewrite keep_words_filter. simpl. fold (filter_input L s). fold tokens.
    rewrite !split_join_words by (try exact Hkept; rewrite split_join_words; exact Hkept).
    reflexivity. }
  split; [exact H|]. rewrite H. apply length_filter.
Qed.

Lemma words_after_counts_kept_tokens_witness :
  words_after (clean_comment sample_libraries (lit "It was NOT good!!")) = 3%nat
  /\ (words_after (clean_comment sample_libraries (lit "It was NOT good!!")) <= 4)%nat.
Proof.
  apply (words_after_counts_kept_tokens sample_libraries (lit "It was NOT good!!")).
  apply split_words.
Defined.

(** ** More on collapsing repeated characters *)

Lemma collapse_twice r : collapse (collapse r) = collapse r.
Proof.
  destruct r as [c n]. unfold collapse. simpl.
  destruct (c =? NEWLINE) eqn:Hc; simpl; rewrite Hc; [reflexivity|].
  f_equal. lia.
Qed.

Lemma collapse_code_point r : (collapse r).1 = r.1.
Proof. unfold collapse. destruct (r.1 =? NEWLINE); reflexivity. Qed.

Lemma maximal_runs_collapse runs :
  maximal_runs runs -> maximal_runs (map collapse runs).
Proof.
  induction runs as [|[c n] rest IH]; [exact id|].
  intros (Hn & Hnext & Hrest). specialize (IH Hrest).
  cbn [map]. unfold collapse at 1. cbn [fst snd].
  assert (match map collapse rest with (d, _) :: _ => c <> d | [] => True end) as Hnext'.
  { destruct rest as [|[d m] rest]; [exact I|]. cbn [map].
    pose proof (collapse_code_point (d, m)) as Hd.
    destruct (collapse (d, m)) as [d' m']. simpl in Hd. subst d'. exact Hnext. }
  destruct (c =? NEWLINE); simpl; repeat split; try assumption; lia.
Qed.

(** X7.  Collapsing repeated characters a second time changes nothing. *)
Theorem normalize_repeated_characters_idempotent (text : pystr) :
  normalize_repeated_characters (normalize_repeated_characters text)
  = normalize_repeated_characters text.
Proof.
  rewrite (collapse_runs_of text). unfold normalize_repeated_characters.
  rewrite sub_repeats_runs by apply maximal_runs_collapse, maximal_runs_of.
  rewrite map_map. f_equal. apply map_ext. intros r. apply collapse_twice.
Qed.

Lemma length_expand_collapse runs :
  (length (expand_runs (map collapse runs)) <= length (expand_runs runs))%nat.
Proof.
  induction runs as [|[c n] rest IH]; [reflexivity|].
  cbn [map expand_runs]. unfold collapse at 1. cbn [fst snd].
  destruct (c =? NEWLINE); cbn [expand_runs];
    rewrite !length_app, !repeat_length; lia.
Qed.

(** A run of three in the expansion of maximal runs comes from a run of
    three or more. *)
Lemma triple_in_runs a c b :
  forall runs, maximal_runs runs ->
    expand_runs runs = a ++ c :: c :: c :: b ->
    exists n, (c, n) ∈ runs /\ (3 <= n)%nat.
Proof.
  induction a as [|x a IH]; intros runs Hruns Heq.
  - destruct runs as [|[d n] rest]; [discriminate Heq|].
    pose proof (maximal_runs_next d n rest Hruns) as Hnext.
    destruct Hruns as (Hn & _ & _). cbn [expand_runs] in Heq.
    destruct n as [|[|[|k]]]; [lia| | |].
    + simpl in Heq. injection Heq as -> Heq. rewrite Heq in Hnext.
      exfalso. apply Hnext. reflexivity.
    + simpl in Heq. injection Heq as -> _ Heq. rewrite Heq in Hnext.
      exfalso. apply Hnext. reflexivity.
    + simpl in Heq. injection Heq as -> _. exists (S (S (S k))).
      split; [left|lia].
  - destruct runs as [|[d n] rest]; [discriminate Heq|].
    pose proof (maximal_runs_next d n rest Hruns) as Hnext.
    destruct Hruns as (Hn & Hd & Hrest). cbn [expand_runs] in Heq.
    destruct n as [|[|m]]; [lia| |].
    + simpl in Heq. injection Heq as _ Heq.
      destruct (IH rest Hrest Heq) as (n & Hin & Hge).
      exists n. split; [right; exact Hin|exact Hge].
    + simpl in Heq. injection Heq as _ Heq.
      destruct (IH ((d, S m) :: rest)) as (n & Hin & Hge).
      * simpl. repeat split; [lia|exact Hd|exact Hrest].
      * exact Heq.
      * apply elem_of_cons in Hin as [Hin|Hin].
        -- injection Hin as -> ->. exists (S (S m)). split; [left|lia].
        -- exists n. split; [right; exact Hin|exact Hge].
Qed.

(** X8.  The result of [normalize_repeated_characters] is never longer
    than its argument, and three equal code points in a row are left in it
    only when they are newlines. *)
Theorem normalize_repeated_characters_no_triple (text : pystr) :
  (length (normalize_repeated_characters text) <= length text)%nat
  /\ forall a c b,
       normalize_repeated_characters text = a ++ c :: c :: c :: b ->
       c = NEWLINE.
Proof.
  rewrite (collapse_runs_of text). split.
  - rewrite <- (expand_runs_of text) at 2. apply length_expand_collapse.
  - intros a c b Heq.
    destruct (triple_in_runs a c b (map collapse (runs_of text))
                (maximal_runs_collapse _ (maximal_runs_of text)) Heq)
      as (n & Hin & Hge).
    apply list_elem_of_fmap in Hin as ([d m] & Hcol & _).
    unfold collapse in Hcol. cbn [fst snd] in Hcol.
    destruct (Z.eqb_spec d NEWLINE) as [->|_].
    + injection Hcol as -> _. reflexivity.
    + injection Hcol as _ ->. lia.
Qed.

(** ** Tags *)

Lemma tag_rest_sub_tags s :
  tag_rest s = None -> tag_rest (sub_tags 0 s) = None.
Proof.
  induction s as [|c s IH]; [reflexivity|]. simpl.
  destruct (Z.eqb_spec c GT) as [->|Hgt]; [discriminate|].
  destruct (Z.eqb_spec c NEWLINE) as [->|Hnl].
  - intros _. reflexivity.
  - intros H. assert (tag_rest s = None) as Hs by (destruct (tag_rest s); [discriminate H|reflexivity]).
    rewrite Hs. destruct (c =? LT); simpl;
      apply Z.eqb_neq in Hgt, Hnl; rewrite Hgt, Hnl, (IH Hs); reflexivity.
Qed.

Lemma sub_tags_tag_free s : forall skip, tag_free (sub_tags skip s).
Proof.
  induction s as [|c s IH]; intros skip; [exact I|]. simpl.
  destruct skip as [|k]; [|apply IH].
  destruct (Z.eqb_spec c LT) as [->|Hlt].
  - destruct (tag_rest s) as [n|] eqn:Hs; simpl.
    + split; [discriminate|apply IH].
    + split; [intros _; apply tag_rest_sub_tags, Hs|apply IH].
  - simpl. split; [contradiction|apply IH].
Qed.

Lemma tag_free_sub_tags s : tag_free s -> sub_tags 0 s = s.
Proof.
  induction s as [|c s IH]; [reflexivity|]. simpl. intros [Hc Hs].
  rewrite (IH Hs). destruct (Z.eqb_spec c LT) as [->|_]; [|reflexivity].
  rewrite Hc by reflexivity. reflexivity.
Qed.

Lemma tag_rest_closed body b :
  NEWLINE ∉ body -> tag_rest (body ++ GT :: b) <> None.
Proof.
  induction body as [|c body IH]; intros Hnl; simpl; [discriminate|].
  destruct (c =? GT); [discriminate|].
  destruct (Z.eqb_spec c NEWLINE) as [->|_]; [exfalso; apply Hnl; left|].
  assert (NEWLINE ∉ body) as Hb by (intros H; apply Hnl; right; exact H).
  specialize (IH Hb). destruct (tag_rest (body ++ GT :: b)); [discriminate|congruence].
Qed.

Lemma tag_free_app a s : tag_free (a ++ s) -> tag_free s.
Proof. induction a as [|c a IH]; [exact id|]. simpl. intros [_ H]. exact (IH H). Qed.

(** X9.  Whatever [html.unescape] returns, no tag is left in the result of
    [remove_html_tags]: it has no [<], text without a newline, [>] in it,
    and the substitution applied again changes nothing. *)
Theorem remove_html_tags_leaves_no_tag (L : Libraries) (text : pystr) :
  (forall a body b,
     NEWLINE ∉ body -> remove_html_tags L text <> a ++ LT :: body ++ GT :: b)
  /\ sub_tags 0 (remove_html_tags L text) = remove_html_tags L text.
Proof.
  unfold remove_html_tags. cbv zeta.
  pose proof (sub_tags_tag_free (html_unescape L text) 0) as Hfree.
  split; [|apply tag_free_sub_tags, Hfree].
  intros a body b Hnl Heq. rewrite Heq in Hfree.
  apply tag_free_app in Hfree. destruct Hfree as [Hc _].
  exact (tag_rest_closed body b Hnl (Hc eq_refl)).
Qed.

(** ** What the filter receives *)

(** X10.  With case tables that never map to an upper-case ASCII letter,
    the text [clean_comment] gives to [remove_stopwords] has only
    lower-case ASCII letters and whitespace, whatever the other imported
    functions return. *)
Theorem filter_input_lowercase_or_space (L : Libraries) (s : pystr) :
  lower_no_ascii_upper L ->
  lowercase_or_space (filter_input L s).
Proof. intros Hlow. apply filter_input_alphabet, Hlow. Qed.

Lemma filter_input_lowercase_or_space_witness :
  lowercase_or_space (filter_input sample_libraries scenario1).
Proof.
  apply filter_input_lowercase_or_space. exact sample_lower_no_ascii_upper.
Defined.

Lemma remove_symbols_no_letters s :
  Forall (fun c => is_ascii_letter c = false) s ->
  Forall (fun c => is_space c = true) (remove_symbols s).
Proof.
  unfold remove_symbols, sub_non_letters.
  induction 1 as [|c s Hc _ IH]; simpl; constructor; [|exact IH].
  rewrite Hc. simpl. destruct (is_space c) eqn:Hs; [exact Hs|reflexivity].
Qed.

(** X11.  With a tokenizer that finds no token in whitespace: a comment
    that has no ASCII letter left after lower-casing is cleaned to the
    empty string with no word after, and is flagged ["Failed"]. *)
Theorem clean_comment_without_letters (L : Libraries) (s : pystr) :
  (forall text, Forall (fun c => is_space c = true) text -> word_tokenize L text = []) ->
  Forall (fun c => is_ascii_letter c = false)
    (lowercase_text L
       (normalize_repeated_characters
          (remove_emojis L (remove_html_tags L (expand_contractions_text L s))))) ->
  clean_comment L s = ([], count_words s, 0%nat)
  /\ forall original_text,
       flag_cleaning_success original_text (cleaned_text (clean_comment L s))
       = lit "Failed".
Proof.
  intros Htok Hletters.
  assert (clean_comment L s = ([], count_words s, 0%nat)) as H.
  { unfold clean_comment, remove_stopwords. cbv zeta.
    rewrite (Htok _ (remove_symbols_no_letters _ Hletters)). reflexivity. }
  split; [exact H|]. intros original_text. rewrite H. reflexivity.
Qed.

Lemma clean_comment_without_letters_witness :
  clean_comment sample_libraries (lit "!!!???") = ([], 1%nat, 0%nat)
  /\ forall original_text,
       flag_cleaning_success original_text
         (cleaned_text (clean_comment sample_libraries (lit "!!!???")))
       = lit "Failed".
Proof.
  apply (clean_comment_without_letters sample_libraries (lit "!!!???")).
  - intros text Htext. apply split_from_nil. split; [reflexivity|exact Htext].
  - repeat constructor.
Defined.

(** ** The replacement of ["can not"] *)

Lemma starts_with_spec p s : starts_with p s = true <-> exists r, s = p ++ r.
Proof.
  revert s. induction p as [|x p IH]; intros s; simpl.
  - split; [intros _; exists s; reflexivity|reflexivity].
  - destruct s as [|c s].
    + split; [discriminate|intros [r H]; discriminate H].
    + rewrite andb_true_iff, Z.eqb_eq, IH. split.
      * intros [-> [r ->]]. exists r. reflexivity.
      * intros [r H]. injection H as -> ->. split; [reflexivity|exists r; reflexivity].
Qed.

Lemma replace_from_skip old new p s :
  replace_from old new (length p) (p ++ s) = replace_from old new 0 s.
Proof. induction p as [|x p IH]; [reflexivity|]. simpl. exact IH. Qed.

Lemma replace_match old new x r :
  replace (x :: old) new ((x :: old) ++ r) = new ++ replace (x :: old) new r.
Proof.
  unfold replace. cbn [app replace_from].
  replace (starts_with (x :: old) (x :: old ++ r)) with true
    by (symmetry; apply (starts_with_spec (x :: old) (x :: old ++ r)); exists r; reflexivity).
  cbn [length]. rewrite Nat.sub_succ, Nat.sub_0_r, replace_from_skip. reflexivity.
Qed.

Lemma replace_no_match old new c rest :
  starts_with old (c :: rest) = false ->
  replace old new (c :: rest) = c :: replace old new rest.
Proof. intros H. unfold replace. cbn [replace_from]. rewrite H. reflexivity. Qed.

Lemma replace_can_not_prefix q s :
  99 ∉ q ->
  starts_with q (replace (lit "can not") (lit "cannot") s) = true ->
  starts_with q s = true.
Proof.
  revert s. induction q as [|x q IH]; intros s Hq; [reflexivity|].
  destruct s as [|c rest]; [exact id|].
  destruct (starts_with (lit "can not") (c :: rest)) eqn:Hm.
  - apply starts_with_spec in Hm as [r ->].
    change (lit "can not" ++ r) with ((99 :: lit "an not") ++ r).
    change (lit "can not") with (99 :: lit "an not") at 1.
    rewrite replace_match. simpl. intros H.
    apply andb_true_iff in H as [H _]. apply Z.eqb_eq in H.
    exfalso. apply Hq. rewrite H. left.
  - rewrite (replace_no_match _ _ _ _ Hm). simpl. intros H.
    apply andb_true_iff in H as [Hx H]. rewrite Hx. simpl.
    apply IH; [intros Hin; apply Hq; right; exact Hin|exact H].
Qed.

Lemma replace_can_not_gone n :
  forall s, (length s <= n)%nat ->
    forall a b, replace (lit "can not") (lit "cannot") s <> a ++ lit "can not" ++ b.
Proof.
  induction n as [|n IH]; intros s Hlen a b.
  - destruct s; [|simpl in Hlen; lia]. destruct a; discriminate.
  - destruct s as [|c rest]; [destruct a; discriminate|]. simpl in Hlen.
    destruct (starts_with (lit "can not") (c :: rest)) eqn:Hm.
    + apply starts_with_spec in Hm as [r Hr]. rewrite Hr.
      assert (length r <= n)%nat as Hlr.
      { apply (f_equal (@length Z)) in Hr. rewrite length_app in Hr.
        simpl in Hr. lia. }
      change (lit "can not" ++ r) with ((99 :: lit "an not") ++ r).
      change (lit "can not") with (99 :: lit "an not") at 1.
      rewrite replace_match.
      change (99 :: lit "an not") with (lit "can not").
      destruct a as [|x1 [|x2 [|x3 [|x4 [|x5 [|x6 a]]]]]]; try discriminate.
      intros H. injection H as _ _ _ _ _ _ H. exact (IH r Hlr a b H).
    + rewrite (replace_no_match _ _ _ _ Hm).
      destruct a as [|x a].
      * intros H. injection H as -> H.
        assert (starts_with (lit "an not")
                  (replace (lit "can not") (lit "cannot") rest) = true) as Hp
          by (apply starts_with_spec; exists b; exact H).
        apply replace_can_not_prefix in Hp.
        -- simpl in Hm. change (starts_with (lit "an not") rest = true) in Hp.
           change (starts_with (lit "an not") rest = false) in Hm. congruence.
        -- apply (bool_decide_unpack _). vm_compute. exact I.
      * intros H. injection H as _ H. exact (IH rest ltac:(lia) a b H).
Qed.

(** X12.  Whatever [contractions.fix] returns, the string ["can not"] does
    not occur in the result of [expand_contractions_text]. *)
Theorem expand_contractions_text_no_can_not (L : Libraries) (text a b : pystr) :
  expand_contractions_text L text <> a ++ lit "can not" ++ b.
Proof.
  unfold expand_contractions_text. cbv zeta.
  exact (replace_can_not_gone _ _ (Nat.le_refl _) a b).
Qed.

(** ** The frame of [process_comments_vectorized] *)

Lemma strip_nil_count_words s : strip s = [] <-> count_words s = 0%nat.
Proof.
  rewrite strip_nil. unfold count_words, split.
  rewrite length_zero_iff_nil, split_from_nil. tauto.
Qed.

Lemma flag_values original_text cleaned :
  (flag_cleaning_success original_text cleaned = lit "Failed"
   /\ count_words cleaned = 0%nat)
  \/ (flag_cleaning_success original_text cleaned = lit "Success"
      /\ (0 < count_words cleaned)%nat).
Proof.
  pose proof (strip_nil_count_words cleaned) as H.
  unfold flag_cleaning_success. destruct (strip cleaned) as [|c r].
  - left. split; [reflexivity|apply H; reflexivity].
  - right. split; [reflexivity|].
    destruct (count_words cleaned); [|lia]. destruct H as [_ H]. discriminate H. reflexivity.
Qed.

(** X13.  Every row of the frame belongs to one comment of the input: its
    cleaned text and counts are those of [clean_comment] on that comment,
    [Words_Removed] is the difference of the two counts (which are not
    negative), and [Cleaning_Success] is ["Failed"] exactly when
    [Words_After] is 0 and ["Success"] exactly when it is positive. *)
Theorem process_comments_vectorized_rows
    (L : Libraries) (comments : list pystr) (row : Row) :
  row ∈ process_comments_vectorized L comments ->
  Original_Comment row ∈ comments
  /\ Cleaned_Comment row = cleaned_text (clean_comment L (Original_Comment row))
  /\ Words_Before row = Z.of_nat (count_words (Original_Comment row))
  /\ Words_After row = Z.of_nat (count_words (Cleaned_Comment row))
  /\ Words_Removed row = Words_Before row - Words_After row
  /\ (Cleaning_Success row = lit "Failed" <-> Words_After row = 0)
  /\ (Cleaning_Success row = lit "Success" <-> 0 < Words_After row).
Proof.
  unfold process_comments_vectorized. intros Hrow.
  apply list_elem_of_fmap in Hrow as (comment & -> & Hin).
  unfold process_row. cbn [Original_Comment Cleaned_Comment Words_Before
    Words_After Words_Removed Cleaning_Success].
  repeat split; try reflexivity; try exact Hin.
  all: change (clean_comment L comment).2
         with (count_words (clean_comment L comment).1.1).
  all: destruct (flag_values comment (clean_comment L comment).1.1)
         as [[Hf Hc]|[Hf Hc]]; rewrite Hf; try rewrite Hc;
       try discriminate; try reflexivity; try lia.
Qed.

Lemma process_comments_vectorized_rows_witness :
  let row := process_row sample_libraries (lit "Terrible product!!!") in
  Cleaned_Comment row = lit "terrible product"
  /\ Words_Removed row = Words_Before row - Words_After row
  /\ (Cleaning_Success row = lit "Success" <-> 0 < Words_After row).
Proof.
  destruct (process_comments_vectorized_rows sample_libraries
              [lit "Terrible product!!!"]
              (process_row sample_libraries (lit "Terrible product!!!")))
    as (_ & H1 & _ & _ & H2 & _ & H3).
  - left.
  - split; [exact H1|]. split; [exact H2|exact H3].
Defined.

(** X14.  In the summary of a frame that [process_comments_vectorized]
    returned, the successful and the failed rows add up to all rows, one
    row per comment, and the failed rows are those with no word after. *)
Theorem summary_counts_add_up (L : Libraries) (comments : list pystr) :
  comments <> [] ->
  let df := process_comments_vectorized L comments in
  total_comments df = length comments
  /\ (successful df + failed df)%nat = total_comments df
  /\ failed df = length (filter (fun row => Words_After row = 0) df).
Proof.
  intros _. cbv zeta. unfold total_comments, successful, failed, process_comments_vectorized.
  induction comments as [|comment rest (IH1 & IH2 & IH3)]; [repeat split|].
  cbn [map length]. rewrite !filter_cons.
  assert (Words_After (process_row L comment)
          = Z.of_nat (count_words (clean_comment L comment).1.1)) as Hafter
    by reflexivity.
  assert (Cleaning_Success (process_row L comment)
          = flag_cleaning_success comment (clean_comment L comment).1.1) as Hflag
    by reflexivity.
  destruct (flag_values comment (clean_comment L comment).1.1)
    as [[Hf Hc]|[Hf Hc]]; rewrite Hf in Hflag.
  - rewrite (decide_False (P := _ = lit "Success")) by (rewrite Hflag; discriminate).
    rewrite (decide_True (P := _ = lit "Failed")) by exact Hflag.
    rewrite (decide_True (P := _ = 0)) by (rewrite Hafter, Hc; reflexivity).
    cbn [length]. repeat split; lia.
  - rewrite (decide_True (P := _ = lit "Success")) by exact Hflag.
    rewrite (decide_False (P := _ = lit "Failed")) by (rewrite Hflag; discriminate).
    rewrite (decide_False (P := _ = 0)) by (rewrite Hafter; lia).
    cbn [length]. repeat split; lia.
Qed.

Lemma summary_counts_add_up_witness :
  let df :=
    process_comments_vectorized sample_libraries
      [lit "Terrible product!!!"; lit "!!!???"; lit "It was NOT good!!"] in
  total_comments df = 3%nat
  /\ (successful df + failed df)%nat = total_comments df
  /\ failed df = length (filter (fun row => Words_After row = 0) df).
Proof.
  apply (summary_counts_add_up sample_libraries
           [lit "Terrible product!!!"; lit "!!!???"; lit "It was NOT good!!"]).
  discriminate.
Defined.

(** X15.  The total of [Words_Removed] over such a frame is the total of
    [Words_Before] minus the total of [Words_After]. *)
Theorem total_words_removed_difference (L : Libraries) (comments : list pystr) :
  comments <> [] ->
  let df := process_comments_vectorized L comments in
  total_words_removed df
  = foldr Z.add 0 (map Words_Before df) - foldr Z.add 0 (map Words_After df).
Proof.
  intros _. cbv zeta. unfold total_words_removed, process_comments_vectorized.
  induction comments as [|comment rest IH]; [reflexivity|].
  cbn [map foldr]. rewrite IH.
  assert (Words_Removed (process_row L comment)
          = Words_Before (process_row L comment)
            - Words_After (process_row L comment)) as H by reflexivity.
  rewrite H. lia.
Qed.

Lemma total_words_removed_difference_witness :
  let df :=
    process_comments_vectorized sample_libraries
      [lit "Terrible product!!!"; lit "!!!???"; lit "It was NOT good!!"] in
  total_words_removed df
  = foldr Z.add 0 (map Words_Before df) - foldr Z.add 0 (map Words_After df).
Proof.
  apply (total_words_removed_difference sample_libraries
           [lit "Terrible product!!!"; lit "!!!???"; lit "It was NOT good!!"]).
  discriminate.
Defined.

(** ** The data generator *)

Lemma lstrip_suffix s : exists p, s = p ++ lstrip s.
Proof.
  induction s as [|c s [p IH]]; [exists []; reflexivity|]. simpl.
  destruct (is_space c); [|exists []; reflexivity].
  exists (c :: p). simpl. rewrite <- IH. reflexivity.
Qed.

Lemma strip_idempotent s : strip (strip s) = strip s.
Proof.
  assert (match strip s with [] => True | c :: _ => is_space c = false end) as Hhead.
  { unfold strip. destruct (lstrip_suffix (rev (lstrip s))) as [p Hp].
    apply (f_equal (@rev Z)) in Hp. rewrite rev_involutive, rev_app_distr in Hp.
    pose proof (lstrip_head s) as Hh. rewrite Hp in Hh.
    destruct (rev (lstrip (rev (lstrip s)))); [exact I|exact Hh]. }
  assert (match rev (strip s) with [] => True | c :: _ => is_space c = false end) as Hlast.
  { unfold strip. rewrite rev_involutive. apply lstrip_head. }
  unfold strip at 1. rewrite (lstrip_id _ Hhead), (lstrip_id _ Hlast).
  apply rev_involutive.
Qed.

Lemma generate_loop_invariant draws num_comments :
  forall comments used counter,
    NoDup comments ->
    (forall c, c ∈ used <-> c ∈ comments) ->
    counter = length comments ->
    (counter <= num_comments)%nat ->
    let result := generate_loop draws num_comments comments used counter in
    NoDup result
    /\ (length result <= num_comments)%nat
    /\ (length result <= length comments + length draws)%nat
    /\ (forall c, c ∈ result -> c ∈ comments \/ exists d, d ∈ draws /\ c = comment_of d).
Proof.
  induction draws as [|d rest IH]; intros comments used counter Hnd Hused Hc Hle; simpl.
  - repeat split; [exact Hnd|lia|lia|intros c Hin; left; exact Hin].
  - destruct (Nat.ltb_spec counter num_comments) as [Hlt|Hge];
      [|repeat split; [exact Hnd|lia|lia|intros c Hin; left; exact Hin]].
    destruct (bool_decide_reflect (comment_of d ∉ used)) as [Hnew|Hold].
    + destruct (IH (comments ++ [comment_of d]) ({[comment_of d]} ∪ used) (S counter))
        as (H1 & H2 & H3 & H4).
      * apply NoDup_app. repeat split; [exact Hnd| |apply NoDup_singleton].
        intros c Hin Hin'. apply list_elem_of_singleton in Hin'. subst c.
        apply Hnew, Hused, Hin.
      * intros c. rewrite elem_of_union, elem_of_singleton, elem_of_app,
          list_elem_of_singleton, Hused. tauto.
      * rewrite length_app. simpl. lia.
      * lia.
      * rewrite length_app in H3. simpl in H3.
        repeat split; [exact H1|exact H2|lia|].
        intros c Hin. destruct (H4 c Hin) as [Hc'|(d' & Hd' & ->)].
        -- apply elem_of_app in Hc' as [Hc'|Hc']; [left; exact Hc'|].
           apply list_elem_of_singleton in Hc'. right. exists d. split; [left|exact Hc'].
        -- right. exists d'. split; [right; exact Hd'|reflexivity].
    + destruct (IH comments used counter Hnd Hused Hc Hle) as (H1 & H2 & H3 & H4).
      repeat split; [exact H1|exact H2|lia|].
      intros c Hin. destruct (H4 c Hin) as [Hc'|(d' & Hd' & ->)]; [left; exact Hc'|].
      right. exists d'. split; [right; exact Hd'|reflexivity].
Qed.

(** X16.  Whatever [random] returns, the comments of
    [generate_large_dataset] are pairwise different, there are at most
    [num_comments] of them, and each one is the comment built in one of
    the first [num_comments * 10] passes. *)
Theorem generate_large_dataset_unique (rand : nat -> Draw) (num_comments : nat) :
  let comments := generate_large_dataset rand num_comments in
  NoDup comments
  /\ (length comments <= num_comments)%nat
  /\ forall c, c ∈ comments ->
       exists n, (1 <= n <= num_comments * 10)%nat /\ c = comment_of (rand n).
Proof.
  cbv zeta. unfold generate_large_dataset.
  destruct (generate_loop_invariant (map rand (seq 1 (num_comments * 10)))
              num_comments [] ∅ 0%nat) as (H1 & H2 & _ & H4).
  - constructor.
  - intros c. split; intros H; inversion H.
  - reflexivity.
  - lia.
  - repeat split; [exact H1|exact H2|].
    intros c Hin. destruct (H4 c Hin) as [Hc|(d & Hd & ->)]; [inversion Hc|].
    apply list_elem_of_fmap in Hd as (n & -> & Hn).
    apply list_elem_of_In, in_seq in Hn. exists n. split; [lia|reflexivity].
Qed.

(** X17.  Every comment of [generate_large_dataset] is stripped: [strip]
    leaves it as it is, so it has no whitespace at either end. *)
Theorem generate_large_dataset_stripped (rand : nat -> Draw) (num_comments : nat)
    (c : pystr) :
  c ∈ generate_large_dataset rand num_comments -> strip c = c.
Proof.
  intros Hin. unfold generate_large_dataset in Hin.
  destruct (generate_loop_invariant (map rand (seq 1 (num_comments * 10)))
              num_comments [] ∅ 0%nat) as (_ & _ & _ & H4);
    [constructor|intros c'; split; intros H; inversion H|reflexivity|lia|].
  destruct (H4 c Hin) as [Hc|(d & _ & ->)]; [inversion Hc|].
  unfold comment_of. cbv zeta. apply strip_idempotent.
Qed.

Lemma generate_large_dataset_stripped_witness :
  let c := lit "Not bad " ++ [128525] in
  c ∈ generate_large_dataset sample_draw 2 /\ strip c = c.
Proof.
  assert (lit "Not bad " ++ [128525] ∈ generate_large_dataset sample_draw 2) as Hin
    by (apply (bool_decide_unpack _); vm_compute; exact I).
  split; [exact Hin|].
  exact (generate_large_dataset_stripped sample_draw 2 _ Hin).
Defined.

(** * The module against the stages in the words of the specification *)

(** ** Whitespace tokens *)

Lemma split_from_lead cur ws s :
  all_space ws -> cur <> [] -> ws <> [] ->
  split_from cur (ws ++ s) = cur :: split s.
Proof.
  intros Hws Hcur Hne. destruct Hws as [|c ws Hc Hws]; [congruence|].
  simpl. rewrite Hc. destruct cur; [congruence|]. f_equal.
  clear Hne Hc. induction Hws as [|d ws Hd _ IH]; [reflexivity|].
  unfold split in *. simpl. rewrite Hd. exact IH.
Qed.









(** ** Stripping *)

Lemma lstrip_lead ws s : all_space ws -> lstrip (ws ++ s) = lstrip s.
Proof. induction 1 as [|c ws Hc _ IH]; [reflexivity|]. simpl. rewrite Hc. exact IH. Qed.

Lemma lstrip_decompose s : exists lead, s = lead ++ lstrip s /\ all_space lead.
Proof.
  induction s as [|c s (lead & IH & Hlead)]; [exists []; split; [reflexivity|constructor]|].
  simpl. destruct (is_space c) eqn:Hc.
  - exists (c :: lead). split; [simpl; rewrite <- IH; reflexivity|constructor; assumption].
  - exists []. split; [reflexivity|constructor].
Qed.

Lemma strip_decompose s : stripped_of_whitespace s (strip s).
Proof.
  destruct (lstrip_decompose s) as (lead & Hs & Hlead).
  destruct (lstrip_decompose (rev (lstrip s))) as (tail & Ht & Htail).
  assert (lstrip s = strip s ++ rev tail) as Hmid.
  { unfold strip. apply (f_equal (@rev Z)) in Ht.
    rewrite rev_involutive, rev_app_distr in Ht. exact Ht. }
  exists lead, (rev tail). repeat split.
  - rewrite <- Hmid. exact Hs.
  - exact Hlead.
  - apply Forall_rev. exact Htail.
  - intros c r Hc. pose proof (lstrip_head s) as Hh.
    rewrite Hmid, Hc in Hh. exact Hh.
  - intros r c Hc. pose proof (lstrip_head (rev (lstrip s))) as Hh.
    unfold strip in Hc. apply (f_equal (@rev Z)) in Hc.
    rewrite rev_involutive, rev_app_distr in Hc. simpl in Hc.
    rewrite Hc in Hh. exact Hh.
Qed.

Lemma stripped_is_strip s t : stripped_of_whitespace s t -> t = strip s.
Proof.
  intros (lead & trail & -> & Hlead & Htrail & Hfirst & Hlast).
  unfold strip. rewrite (lstrip_lead lead _ Hlead).
  destruct t as [|c r].
  - simpl. assert (lstrip trail = []) as -> by (apply lstrip_nil; exact Htrail).
    reflexivity.
  - assert (lstrip ((c :: r) ++ trail) = (c :: r) ++ trail) as ->
      by (simpl; rewrite (Hfirst c r eq_refl); reflexivity).
    rewrite rev_app_distr, (lstrip_lead (rev trail)) by (apply Forall_rev; exact Htrail).
    rewrite lstrip_id; [rewrite rev_involutive; reflexivity|].
    destruct (rev (c :: r)) as [|d q] eqn:E; [exact I|].
    apply (f_equal (@rev Z)) in E. rewrite rev_involutive in E. simpl in E.
    exact (Hlast (rev q) d E).
Qed.

(** ** Replacing, tag by tag and letter by letter *)














(** ** The controller and the success flag *)


(** C7.  The cleaned text has exactly one form stripped of surrounding
    whitespace; [flag_cleaning_success] returns ["Success"] exactly when
    that form is not empty and ["Failed"] exactly when it is, and its
    result does not depend on the original text. *)
Theorem flag_cleaning_success_spec (original_text cleaned_text : pystr) :
  exists stripped,
    stripped_of_whitespace cleaned_text stripped
    /\ (forall t, stripped_of_whitespace cleaned_text t -> t = stripped)
    /\ (flag_cleaning_success original_text cleaned_text = lit "Success"
        <-> stripped <> [])
    /\ (flag_cleaning_success original_text cleaned_text = lit "Failed"
        <-> stripped = [])
    /\ (forall other_text,
          flag_cleaning_success other_text cleaned_text
          = flag_cleaning_success original_text cleaned_text).
Proof.
  exists (strip cleaned_text).
  split; [apply strip_decompose|]. split; [apply stripped_is_strip|].
  unfold flag_cleaning_success.
  destruct (strip cleaned_text) as [|c rest]; repeat split;
    try reflexivity; try discriminate; try congruence.
Qed.

(** ** The negation word that the tokenizer splits *)

(** C1.  The claim fails on the code for the negation word ["cannot"].
    With a tokenizer that splits ["cannot"] into ["can"] and ["not"], as
    NLTK's does, and a corpus that has ["can"] and ["it"] but not
    ["believe"]: the word ["cannot"] is in [negation_words] and is a
    whitespace token of the text ["cannot believe it"], yet
    [remove_stopwords] returns ["not believe"], in which it is no
    token. *)
Theorem remove_stopwords_drops_cannot (L : Libraries) :
  word_tokenize L (lit "cannot believe it")
  = [lit "can"; lit "not"; lit "believe"; lit "it"] ->
  lit "can" ∈ stopwords_words_english L ->
  lit "it" ∈ stopwords_words_english L ->
  lit "believe" ∉ stopwords_words_english L ->
  lit "cannot" ∈ negation_words
  /\ lit "cannot" ∈ split (lit "cannot believe it")
  /\ remove_stopwords L (lit "cannot believe it") = lit "not believe"
  /\ lit "cannot" ∉ split (remove_stopwords L (lit "cannot believe it")).
Proof.
  intros Htok Hcan Hit Hbelieve.
  assert (remove_stopwords L (lit "cannot believe it") = lit "not believe") as H.
  { unfold remove_stopwords. rewrite Htok, keep_words_filter.
    rewrite filter_cons_False, filter_cons_True, filter_cons_True,
      filter_cons_False, filter_nil.
    - reflexivity.
    - intros [Hn|Hs]; [|apply Hs, stop_words_spec; split; [exact Hit|]];
        revert Hn || idtac; apply (bool_decide_unpack _); vm_compute; exact I.
    - right. rewrite stop_words_spec. tauto.
    - left. apply (bool_decide_unpack _). vm_compute. exact I.
    - intros [Hn|Hs]; [|apply Hs, stop_words_spec; split; [exact Hcan|]];
        revert Hn || idtac; apply (bool_decide_unpack _); vm_compute; exact I. }
  repeat split; try (apply (bool_decide_unpack _); vm_compute; exact I).
  - exact H.
  - rewrite H. apply (bool_decide_unpack _). vm_compute. exact I.
Qed.

Lemma remove_stopwords_drops_cannot_witness :
  lit "cannot" ∈ negation_words
  /\ lit "cannot" ∈ split (lit "cannot believe it")
  /\ remove_stopwords treebank_libraries (lit "cannot believe it") = lit "not believe"
  /\ lit "cannot" ∉ split (remove_stopwords treebank_libraries (lit "cannot believe it")).
Proof.
  apply remove_stopwords_drops_cannot; try reflexivity;
    apply (bool_decide_unpack _); vm_compute; exact I.
Defined.
